(** * Gene Ontology term mapper: fetch / filter / aggregate pipeline

    A shallow embedding of [go_term_fetcher.py] and [service.py]:
    the [Annotation] record, the [GO_CATEGORIES] table, the pure
    [filter_by_category], the coroutine [fetch_go_terms] with its single
    outbound request, and [map_go_terms], which gathers one
    [fetch_and_filter] task per identifier over a shared result dict. *)

From stdpp Require Import gmap strings list fin_maps.

Open Scope string_scope.

(** ** go_term_fetcher.py: data model *)

(** [GO_CATEGORIES]: category code to aspect string. *)
Definition GO_CATEGORIES : gmap string string :=
  {[ "BP" := "biological_process";
     "MF" := "molecular_function";
     "CC" := "cellular_component" ]}.

(** [class Annotation(BaseModel)]: twelve fields, each [Optional[str]]
    with default [None]. *)
Record Annotation := mkAnnotation {
  id : option string;
  geneProductId : option string;
  qualifier : option string;
  goId : option string;
  goAspect : option string;
  goEvidence : option string;
  goName : option string;
  assignedBy : option string;
  symbol : option string;
  synonyms : option string;
  name : option string;
  reference : option string
}.

#[global] Instance Annotation_eq_dec : EqDecision Annotation.
Proof. solve_decision. Defined.

(** ** go_term_fetcher.py: the category filter *)

(** [filter_by_category(go_terms, category)].  The membership test
    [category not in GO_CATEGORIES] is the [None] branch of the lookup; the
    comprehension keeps [t] when [t.goAspect == GO_CATEGORIES[category]],
    which for an absent ([None]) aspect compares [None] with a string and
    is false. *)
Definition filter_by_category (go_terms : list Annotation) (category : string)
  : list Annotation :=
  match GO_CATEGORIES !! category with
  | None => go_terms
  | Some aspect =>
      filter (fun t => goAspect t = Some aspect) go_terms
  end.

(** ** Values and failures at the HTTP boundary *)

(** A decoded JSON document, as [resp.json()] hands it to Python: objects
    are dicts keyed by strings, arrays are lists. *)
#[warnings="-register-all"]
Inductive json :=
| JNull
| JBool (b : bool)
| JInt (n : Z)
| JFloat (lit : string)
| JStr (s : string)
| JArr (items : list json)
| JObj (members : gmap string json).

(** The exceptions that can leave [fetch_go_terms]. *)
Inductive exn :=
| TransportError                  (* the request got no response *)
| HTTPStatusError (code : Z)      (* [resp.raise_for_status()] *)
| JSONDecodeError                 (* [resp.json()] *)
| KeyError (key : string)         (* [data["results"]] on a dict *)
| TypeError                       (* subscript, iteration or [**d] on the wrong type *)
| ValidationError.                (* pydantic field validation *)

(** Outcome of a synchronous Python computation. *)
Inductive Exc (A : Type) :=
| Return (a : A)
| Raise (e : exn).
Arguments Return {A} a.
Arguments Raise {A} e.

#[global] Instance Exc_ret : MRet Exc := fun _ a => Return a.
#[global] Instance Exc_bind : MBind Exc := fun _ _ f m =>
  match m with
  | Return a => f a
  | Raise e => Raise e
  end.
#[global] Instance Exc_fmap : FMap Exc := fun _ _ f m =>
  match m with
  | Return a => Return (f a)
  | Raise e => Raise e
  end.

Definition raised {A} (r : Exc A) : Prop := exists e, r = Raise e.

(** Query parameter values of the [params] dict. *)
Inductive param :=
| PStr (s : string)
| PInt (n : Z).

Record HttpRequest := mkHttpRequest {
  url : string;
  params : gmap string param
}.

(** What the client sees of a response: the status line, and the body as
    [resp.json()] decodes it ([None] when the body is not valid JSON). *)
Record Response := mkResponse {
  status_code : Z;
  content_json : option json
}.

(** What awaiting [client.get] yields: a response of the service, or no
    response at all (connection failure, timeout). *)
Inductive HttpOutcome :=
| NoResponse
| Responded (resp : Response).

(** [Response.is_success]: a 2xx status. *)
Definition is_success (resp : Response) : bool :=
  bool_decide (200 <= status_code resp)%Z && bool_decide (status_code resp <= 299)%Z.

(** [resp.raise_for_status()]. *)
Definition raise_for_status (resp : Response) : Exc unit :=
  if is_success resp then Return tt
  else Raise (HTTPStatusError (status_code resp)).

(** [resp.json()]. *)
Definition resp_json (resp : Response) : Exc json :=
  match content_json resp with
  | Some data => Return data
  | None => Raise JSONDecodeError
  end.

(** [data[key]] for a string key: only a dict can be subscripted by a
    string, and a dict without the key raises [KeyError]. *)
Definition getitem (data : json) (key : string) : Exc json :=
  match data with
  | JObj m =>
      match m !! key with
      | Some v => Return v
      | None => Raise (KeyError key)
      end
  | _ => Raise TypeError
  end.

(** [for d in v]: lists yield their elements, dicts their keys, strings
    their characters; the other JSON values are not iterable. *)
Definition py_iter (v : json) : Exc (list json) :=
  match v with
  | JArr items => Return items
  | JObj m => Return (JStr <$> (map_to_list m).*1)
  | JStr s => Return ((fun c => JStr (String c "")) <$> String.list_ascii_of_string s)
  | _ => Raise TypeError
  end.

(** Validation of one [Optional[str] = None] field from the keyword
    arguments: an absent key and [null] give [None], a string is kept, any
    other value is rejected. *)
Definition str_field (kw : gmap string json) (key : string) : Exc (option string) :=
  match kw !! key with
  | None => Return None
  | Some JNull => Return None
  | Some (JStr s) => Return (Some s)
  | Some _ => Raise ValidationError
  end.

(** [Annotation( **d )]: [d] must be a mapping; keys that are not fields
    are ignored. *)
Definition Annotation_init (d : json) : Exc Annotation :=
  match d with
  | JObj kw =>
      f1 ← str_field kw "id";
      f2 ← str_field kw "geneProductId";
      f3 ← str_field kw "qualifier";
      f4 ← str_field kw "goId";
      f5 ← str_field kw "goAspect";
      f6 ← str_field kw "goEvidence";
      f7 ← str_field kw "goName";
      f8 ← str_field kw "assignedBy";
      f9 ← str_field kw "symbol";
      f10 ← str_field kw "synonyms";
      f11 ← str_field kw "name";
      f12 ← str_field kw "reference";
      mret (mkAnnotation f1 f2 f3 f4 f5 f6 f7 f8 f9 f10 f11 f12)
  | _ => Raise TypeError
  end.

(** ** Coroutines *)

(** A coroutine either is finished, or is suspended on the one kind of
    I/O this program awaits (an HTTP GET), or is about to store into the
    result dict shared by the tasks of one request. *)
Inductive Coro (A : Type) :=
| Done (r : Exc A)
| Await (q : HttpRequest) (k : HttpOutcome -> Coro A)
| SetItem (key : string) (v : list Annotation) (k : Coro A).
Arguments Done {A} r.
Arguments Await {A} q k.
Arguments SetItem {A} key v k.

Fixpoint Coro_bind_def {A B} (f : A -> Coro B) (m : Coro A) : Coro B :=
  match m with
  | Done (Return a) => f a
  | Done (Raise e) => Done (Raise e)
  | Await q k => Await q (fun o => Coro_bind_def f (k o))
  | SetItem key v k => SetItem key v (Coro_bind_def f k)
  end.

#[global] Instance Coro_ret : MRet Coro := fun _ a => Done (Return a).
#[global] Instance Coro_bind : MBind Coro := @Coro_bind_def.

(** [await client.get(url, params=params)]. *)
Definition client_get (url : string) (params : gmap string param) : Coro Response :=
  Await (mkHttpRequest url params)
        (fun o => match o with
                  | NoResponse => Done (Raise TransportError)
                  | Responded resp => Done (Return resp)
                  end).

(** ** go_term_fetcher.py: the fetcher *)

(** [fetch_go_terms(uniprot_id)].  Leaving the [async with] block closes
    the client, which neither changes the value returned nor the exception
    raised. *)
Definition fetch_go_terms (uniprot_id : string) : Coro (list Annotation) :=
  let url := "https://www.ebi.ac.uk/QuickGO/services/annotation/search" in
  let params : gmap string param :=
    {[ "geneProductId" := PStr ("UniProtKB:" ++ uniprot_id);
       "limit" := PInt 100 ]} in
  resp ← client_get url params;
  Done (_ ← raise_for_status resp;
        data ← resp_json resp;
        rs ← getitem data "results";
        ds ← py_iter rs;
        mapM Annotation_init ds).

(** Running one coroutine to its end against a responder [env]: the
    outcome, and the requests it awaited on the way. *)
Fixpoint resolve {A} (env : HttpRequest -> HttpOutcome) (c : Coro A) : Exc A :=
  match c with
  | Done r => r
  | Await q k => resolve env (k (env q))
  | SetItem _ _ k => resolve env k
  end.

Fixpoint awaited {A} (env : HttpRequest -> HttpOutcome) (c : Coro A) : list HttpRequest :=
  match c with
  | Done _ => []
  | Await q k => q :: awaited env (k (env q))
  | SetItem _ _ k => awaited env k
  end.

(** ** service.py: request, result and the aggregate operation *)

Record Request := mkRequest {
  request_schema : string;           (* [jschema], alias [$schema] *)
  ids : list string;
  category : option string
}.

Record Result := mkResult {
  result_schema : string;            (* [jschema], alias [$schema] *)
  results : gmap string (list Annotation)
}.

(** [Result(results=results)]: the schema field takes its default. *)
Definition Result_init (d : gmap string (list Annotation)) : Result :=
  mkResult "urn:sd:schema.gene-ontology-term-mapper.1" d.

(** Truth value of a string in a condition: the empty string is false. *)
Definition truthy (s : string) : bool := negb (String.eqb s "").

(** [filter_by_category(terms, req.category) if req.category else terms]. *)
Definition filtered_terms (req : Request) (terms : list Annotation) : list Annotation :=
  match category req with
  | Some c => if truthy c then filter_by_category terms c else terms
  | None => terms
  end.

(** The inner coroutine [fetch_and_filter(uid)] of [map_go_terms]; its last
    statement stores into the dict [results] of the enclosing call. *)
Definition fetch_and_filter (req : Request) (uid : string) : Coro unit :=
  terms ← fetch_go_terms uid;
  let filtered := filtered_terms req terms in
  SetItem uid filtered (Done (Return tt)).

(** *** The event loop under [asyncio.gather]

    [gather] wraps every coroutine in a task.  The loop state holds the
    tasks in argument order, the dict [results] they share, the first
    exception a task ended with (which [gather], called without
    [return_exceptions], raises in its awaiter at once while the other
    tasks keep running), and the log of the requests put on the wire. *)
Record Loop := mkLoop {
  tasks : list (Coro unit);
  shared : gmap string (list Annotation);
  failed : option exn;
  sent : list HttpRequest
}.

(** A task runs without interruption until it is finished or suspended;
    the stores it performs on the way go to the shared dict. *)
Fixpoint advance {A} (c : Coro A) (d : gmap string (list Annotation))
  : Coro A * gmap string (list Annotation) :=
  match c with
  | SetItem key v k => advance k (<[key := v]> d)
  | _ => (c, d)
  end.

Definition is_done {A} (c : Coro A) : bool :=
  match c with Done _ => true | _ => false end.

(** Bookkeeping after a task has been advanced to [c]. *)
Definition note_failure {A} (f : option exn) (c : Coro A) : option exn :=
  match f with
  | Some e => Some e
  | None => match c with Done (Raise e) => Some e | _ => None end
  end.

Definition note_request {A} (c : Coro A) : list HttpRequest :=
  match c with Await q _ => [q] | _ => [] end.

(** Starting the tasks: each one, in argument order, runs up to its first
    suspension. *)
Definition spawn (cs : list (Coro unit)) : Loop :=
  foldl (fun st c =>
           let '(c', d') := advance c (shared st) in
           mkLoop (tasks st ++ [c']) d' (note_failure (failed st) c')
                  (sent st ++ note_request c'))
        (mkLoop [] ∅ None []) cs.

(** One event: the request task [i] is suspended on completes with the
    outcome the network [net] has for it, and the task runs on.  An event
    for a task that is not suspended changes nothing. *)
Definition resume (net : nat -> HttpRequest -> HttpOutcome) (st : Loop) (i : nat) : Loop :=
  match tasks st !! i with
  | Some (Await q k) =>
      let '(c', d') := advance (k (net i q)) (shared st) in
      mkLoop (<[i := c']> (tasks st)) d' (note_failure (failed st) c')
             (sent st ++ note_request c')
  | _ => st
  end.

(** State of the future returned by [gather]: raised with the first
    exception, or resolved once every task is finished, or pending. *)
Definition gather (st : Loop) : option (Exc unit) :=
  match failed st with
  | Some e => Some (Raise e)
  | None => if forallb is_done (tasks st) then Some (Return tt) else None
  end.

(** The loop state of [map_go_terms(req)] after the fetches completed in
    the order [sched] (task indices, positions in [req.ids]). *)
Definition map_go_terms_loop (net : nat -> HttpRequest -> HttpOutcome)
    (sched : list nat) (req : Request) : Loop :=
  foldl (resume net) (spawn (fetch_and_filter req <$> ids req)) sched.

(** [map_go_terms(req)]: [None] while [await asyncio.gather(...)] is still
    pending, otherwise the exception raised or the [Result] returned. *)
Definition map_go_terms (net : nat -> HttpRequest -> HttpOutcome)
    (sched : list nat) (req : Request) : option (Exc Result) :=
  let st := map_go_terms_loop net sched req in
  match gather st with
  | None => None
  | Some (Raise e) => Some (Raise e)
  | Some (Return _) => Some (Return (Result_init (shared st)))
  end.

(** A completion order of the fetches of [req]: every task exactly once. *)
Definition completion_order (req : Request) (sched : list nat) : Prop :=
  sched ≡ₚ seq 0 (length (ids req)).

(** The request [fetch_go_terms] makes for an identifier. *)
Definition quickgo_request (uid : string) : HttpRequest :=
  mkHttpRequest "https://www.ebi.ac.uk/QuickGO/services/annotation/search"
    {[ "geneProductId" := PStr ("UniProtKB:" ++ uid); "limit" := PInt 100 ]}.

(** ** Vocabulary of the statements *)

(** What [fetch_go_terms] does with the outcome of its one request: the
    statements after [await client.get(...)]. *)
Definition fetch_outcome (o : HttpOutcome) : Exc (list Annotation) :=
  match o with
  | NoResponse => Raise TransportError
  | Responded resp =>
      _ ← raise_for_status resp;
      data ← resp_json resp;
      rs ← getitem data "results";
      ds ← py_iter rs;
      mapM Annotation_init ds
  end.

(** The value under the key [results] of a decoded body, if the body is
    an object that has the key. *)
Definition results_of (data : json) : option json :=
  match data with
  | JObj m => m !! "results"
  | _ => None
  end.

(** The failure condition in the words of the specification: the service
    responds with a non-success status, or with a body that is not JSON,
    or with JSON that has no [results] key. *)
Definition specified_fetch_failure (o : HttpOutcome) : Prop :=
  exists resp, o = Responded resp /\
    (is_success resp = false
     \/ content_json resp = None
     \/ exists data, content_json resp = Some data /\ results_of data = None).

(** The field names of [Annotation]. *)
Definition Annotation_fields : list string :=
  ["id"; "geneProductId"; "qualifier"; "goId"; "goAspect"; "goEvidence";
   "goName"; "assignedBy"; "symbol"; "synonyms"; "name"; "reference"].

(** A keyword argument a field accepts: absent, [null] or a string. *)
Definition str_or_null (v : option json) : bool :=
  match v with
  | None | Some JNull | Some (JStr _) => true
  | Some _ => false
  end.

(** An element of [results] that [Annotation( **d )] accepts. *)
Definition decodable_record (d : json) : bool :=
  match d with
  | JObj kw => forallb (fun key => str_or_null (kw !! key)) Annotation_fields
  | _ => false
  end.

(** A [results] value the comprehension turns into a list of records: an
    array of decodable objects, or an empty object or string (which
    iterate over nothing). *)
Definition decodable_results (v : json) : bool :=
  match v with
  | JArr items => forallb decodable_record items
  | JObj m => bool_decide (size m = 0)
  | JStr s => bool_decide (s = "")
  | _ => false
  end.

(** A response with a success status and a JSON body whose [results] is
    [null]. *)
Definition null_results_response : Response :=
  mkResponse 200 (Some (JObj {[ "results" := JNull ]})).

(** What task [i] of [map_go_terms(req)], started for [uid], ends with when
    the network answers it with [net i]: the filtered terms it stores, or
    the exception of its fetch. *)
Definition task_outcome (net : nat -> HttpRequest -> HttpOutcome) (req : Request)
    (i : nat) (uid : string) : Exc (list Annotation) :=
  filtered_terms req <$> resolve (net i) (fetch_go_terms uid).

(** The store and the bookkeeping of one completed task, and their
    accumulation along a completion order. *)
Definition task_write (net : nat -> HttpRequest -> HttpOutcome) (req : Request)
    (d : gmap string (list Annotation)) (i : nat) : gmap string (list Annotation) :=
  match ids req !! i with
  | Some uid =>
      match task_outcome net req i uid with
      | Return v => <[uid := v]> d
      | Raise _ => d
      end
  | None => d
  end.

Definition task_failure (net : nat -> HttpRequest -> HttpOutcome) (req : Request)
    (f : option exn) (i : nat) : option exn :=
  match f with
  | Some e => Some e
  | None =>
      match ids req !! i with
      | Some uid =>
          match task_outcome net req i uid with
          | Return _ => None
          | Raise e => Some e
          end
      | None => None
      end
  end.

(** The task of [uid] at position [i] once the tasks of [done] completed. *)
Definition task_after (net : nat -> HttpRequest -> HttpOutcome) (req : Request)
    (done : list nat) (i : nat) (uid : string) : Coro unit :=
  if decide (i ∈ done)
  then Done ((fun _ => tt) <$> task_outcome net req i uid)
  else fetch_and_filter req uid.

(** ** Sample data *)

(** Records used by the instances of the theorems. *)
Definition sample_bp : Annotation :=
  mkAnnotation (Some "UniProtKB:P12345!296618610") (Some "UniProtKB:P12345")
    (Some "involved_in") (Some "GO:0006103") (Some "biological_process")
    (Some "ISS") None (Some "UniProt") (Some "GOT2") None None
    (Some "GO_REF:0000024").

Definition sample_mf : Annotation :=
  mkAnnotation None (Some "UniProtKB:P12345") (Some "enables")
    (Some "GO:0004069") (Some "molecular_function") None None None None
    None None None.

Definition sample_no_aspect : Annotation :=
  mkAnnotation None (Some "UniProtKB:P12345") None (Some "GO:0005739") None
    None None None None None None None.

(** Responses and networks used by the instances of the theorems. *)
Definition record_json (go_id aspect : string) : json :=
  JObj {[ "goId" := JStr go_id; "goAspect" := JStr aspect ]}.

Definition ok_response (items : list json) : Response :=
  mkResponse 200 (Some (JObj {[ "results" := JArr items ]})).

Definition three_records : list json :=
  [record_json "GO:0006103" "biological_process";
   record_json "GO:0004069" "molecular_function";
   record_json "GO:0005739" "cellular_component"].

Definition five_records : list json :=
  [record_json "GO:0005515" "molecular_function";
   record_json "GO:0005634" "cellular_component";
   record_json "GO:0006355" "biological_process";
   record_json "GO:0005737" "cellular_component";
   record_json "GO:0016567" "biological_process"].

(** Task 0 is answered with three records, every other task with five. *)
Definition sample_net (i : nat) (q : HttpRequest) : HttpOutcome :=
  match i with
  | 0 => Responded (ok_response three_records)
  | _ => Responded (ok_response five_records)
  end.

(** As [sample_net], but task 1 is answered with status 503. *)
Definition failing_net (i : nat) (q : HttpRequest) : HttpOutcome :=
  match i with
  | 1 => Responded (mkResponse 503 None)
  | _ => sample_net i q
  end.

(** ** visualiser.py: the gene to GO-term graph *)

(** The part of a [networkx.DiGraph] the module uses: the nodes in
    insertion order, each with its attribute dict, and the set of
    directed edges.  Attribute values here are strings or [None]. *)
Record DiGraph := mkDiGraph {
  nodes : list (string * gmap string (option string));
  edges : gset (string * string)
}.

(** The exceptions of the graph code: [ValueError] ("None cannot be a
    node") and the [KeyError] of an attribute dict. *)
Inductive vis_exn :=
| ValueError
| AttrKeyError (key : string).

Inductive Vis (A : Type) :=
| Built (a : A)
| Failed (e : vis_exn).
Arguments Built {A} a.
Arguments Failed {A} e.

#[global] Instance Vis_ret : MRet Vis := fun _ a => Built a.
#[global] Instance Vis_bind : MBind Vis := fun _ _ f m =>
  match m with
  | Built a => f a
  | Failed e => Failed e
  end.

(** The node names of a graph, in insertion order ([G.nodes]). *)
Definition node_names (G : DiGraph) : list string := (nodes G).*1.

(** [self._node[n].update(attr)]: the new values win. *)
Fixpoint update_node (n : string) (attr : gmap string (option string))
    (ns : list (string * gmap string (option string)))
  : list (string * gmap string (option string)) :=
  match ns with
  | [] => []
  | (m, a) :: rest =>
      if decide (m = n) then (m, attr ∪ a) :: rest
      else (m, a) :: update_node n attr rest
  end.

(** [G.add_node(node_for_adding, **attr)]: [None] is refused; a new node
    gets [attr], a node already present has its attributes updated. *)
Definition add_node (G : DiGraph) (node_for_adding : option string)
    (attr : gmap string (option string)) : Vis DiGraph :=
  match node_for_adding with
  | None => Failed ValueError
  | Some n =>
      if bool_decide (n ∈ node_names G)
      then Built (mkDiGraph (update_node n attr (nodes G)) (edges G))
      else Built (mkDiGraph (nodes G ++ [(n, attr)]) (edges G))
  end.

(** The node creation inside [add_edge]: a missing end point becomes a
    node without attributes. *)
Definition ensure_node (n : string)
    (ns : list (string * gmap string (option string)))
  : list (string * gmap string (option string)) :=
  if bool_decide (n ∈ ns.*1) then ns else ns ++ [(n, ∅)].

(** [G.add_edge(u, v)]. *)
Definition add_edge (G : DiGraph) (u v : option string) : Vis DiGraph :=
  match u with
  | None => Failed ValueError
  | Some u =>
      match v with
      | None => Failed ValueError
      | Some v =>
          Built (mkDiGraph (ensure_node v (ensure_node u (nodes G)))
                           ({[ (u, v) ]} ∪ edges G))
      end
  end.

(** A [for] loop whose body may raise. *)
Fixpoint for_each {A S} (body : S -> A -> Vis S) (s : S) (l : list A) : Vis S :=
  match l with
  | [] => Built s
  | x :: l => s' ← body s x; for_each body s' l
  end.

(** The body of the inner loop of [build_go_graph]. *)
Definition add_term (gene : string) (G : DiGraph) (term : Annotation) : Vis DiGraph :=
  let go_id := goId term in
  let name := goName term in
  G ← add_node G go_id {[ "label" := name; "type" := Some "go_term" ]};
  add_edge G (Some gene) go_id.

(** The body of the outer loop of [build_go_graph]. *)
Definition add_gene (G : DiGraph) (item : string * list Annotation) : Vis DiGraph :=
  G ← add_node G (Some item.1) {[ "type" := Some "gene" ]};
  for_each (add_term item.1) G item.2.

(** [build_go_graph(go_data)], on [go_data.items()]. *)
Definition build_go_graph (go_data : list (string * list Annotation)) : Vis DiGraph :=
  for_each add_gene (mkDiGraph [] ∅) go_data.

(** The list [node_colors] of [draw_graph] and [export_graph_image]:
    [G.nodes[n]['type']] raises [KeyError] on a node without the
    attribute. *)
Definition node_color (node : string * gmap string (option string)) : Vis string :=
  match node.2 !! "type" with
  | None => Failed (AttrKeyError "type")
  | Some ty =>
      Built (if decide (ty = Some "gene") then "skyblue" else "lightgreen")
  end.

Definition node_colors (G : DiGraph) : Vis (list string) :=
  mapM node_color (nodes G).

(** The terms of [go_data]: pairs of a key and one record of its list. *)
Definition term_of (go_data : list (string * list Annotation))
    (gene : string) (t : Annotation) : Prop :=
  exists terms, (gene, terms) ∈ go_data /\ t ∈ terms.

(** What the attributes of a node of the built graph say about it. *)
Definition node_described (go_data : list (string * list Annotation))
    (n : string) (a : gmap string (option string)) : Prop :=
  (a !! "type" = Some (Some "gene") /\ n ∈ go_data.*1)
  \/ (a !! "type" = Some (Some "go_term")
      /\ exists gene t, term_of go_data gene t /\ goId t = Some n
                        /\ a !! "label" = Some (goName t)).

(** What holds of every graph [build_go_graph] passes through: node
    names are not repeated, every node and every edge comes from
    [go_data]. *)
Definition graph_sound (go_data : list (string * list Annotation))
    (G : DiGraph) : Prop :=
  NoDup (node_names G)
  /\ (forall n a, (n, a) ∈ nodes G -> node_described go_data n a)
  /\ (forall u v, (u, v) ∈ edges G ->
                  exists t, term_of go_data u t /\ goId t = Some v).

(** Nodes and edges are only ever added. *)
Definition graph_grows (G G' : DiGraph) : Prop :=
  (forall n, n ∈ node_names G -> n ∈ node_names G')
  /\ (forall e, e ∈ edges G -> e ∈ edges G').

(** The term, and the item, are in the graph. *)
Definition term_linked (gene : string) (t : Annotation) (G : DiGraph) : Prop :=
  forall v, goId t = Some v -> (gene, v) ∈ edges G /\ v ∈ node_names G.

Definition gene_linked (item : string * list Annotation) (G : DiGraph) : Prop :=
  item.1 ∈ node_names G /\ forall t, t ∈ item.2 -> term_linked item.1 t G.

(** Input for the instances: two genes sharing one GO term. *)
Definition sample_go_data : list (string * list Annotation) :=
  [("P12345", [sample_bp; sample_mf]); ("Q9H0H5", [sample_bp])].

(** ** The scripts under [if __name__ == "__main__"] *)

(** JSON form of an optional string: [None] becomes [null]. *)
Definition opt_json (v : option string) : json :=
  match v with
  | Some s => JStr s
  | None => JNull
  end.

(** [jsonable_encoder(term)] on an [Annotation]: the dict of all twelve
    fields, absent ones included. *)
Definition jsonable_encoder (term : Annotation) : json :=
  JObj {[ "id" := opt_json (id term);
          "geneProductId" := opt_json (geneProductId term);
          "qualifier" := opt_json (qualifier term);
          "goId" := opt_json (goId term);
          "goAspect" := opt_json (goAspect term);
          "goEvidence" := opt_json (goEvidence term);
          "goName" := opt_json (goName term);
          "assignedBy" := opt_json (assignedBy term);
          "symbol" := opt_json (symbol term);
          "synonyms" := opt_json (synonyms term);
          "name" := opt_json (name term);
          "reference" := opt_json (reference term) ]}.

(** [main] of go_term_fetcher.py, up to the value handed to
    [json.dumps]: the first three terms fetched for "P12345", encoded. *)
Definition fetcher_main : Coro json :=
  terms ← fetch_go_terms "P12345";
  Done (Return (JArr (jsonable_encoder <$> take 3 terms))).

(** [main] of visualiser.py, up to the graph handed to [draw_graph]: the
    values of the dict display are awaited one after the other. *)
Definition visualiser_main : Coro (Vis DiGraph) :=
  terms1 ← fetch_go_terms "P12345";
  terms2 ← fetch_go_terms "Q9H0H5";
  Done (Return (build_go_graph [("P12345", terms1); ("Q9H0H5", terms2)])).

(** ** Vocabulary of the further statements *)

(** The three aspect strings of [GO_CATEGORIES]. *)
Definition known_aspect (t : Annotation) : Prop :=
  goAspect t = Some "biological_process"
  \/ goAspect t = Some "molecular_function"
  \/ goAspect t = Some "cellular_component".

#[global] Instance known_aspect_dec (t : Annotation) : Decision (known_aspect t).
Proof. unfold known_aspect. apply _. Defined.

(** The string a decoded object holds under a key, if it holds one. *)
Definition str_value (kw : gmap string json) (key : string) : option string :=
  match kw !! key with
  | Some (JStr s) => Some s
  | _ => None
  end.

(** The record whose fields are the strings a JSON value holds under the
    field names of [Annotation]. *)
Definition record_of (d : json) : Annotation :=
  match d with
  | JObj kw =>
      mkAnnotation (str_value kw "id") (str_value kw "geneProductId")
        (str_value kw "qualifier") (str_value kw "goId")
        (str_value kw "goAspect") (str_value kw "goEvidence")
        (str_value kw "goName") (str_value kw "assignedBy")
        (str_value kw "symbol") (str_value kw "synonyms")
        (str_value kw "name") (str_value kw "reference")
  | _ => mkAnnotation None None None None None None None None None None None None
  end.

(** * Properties *)

(** ** The category filter *)

Section filter_facts.
Context {A : Type} (P : A -> Prop) `{!forall x, Decision (P x)}.

Lemma filter_Forall_id (l : list A) : Forall P l -> filter P l = l.
Proof.
  induction 1 as [|x l Hx _ IH]; [done|].
  by rewrite filter_cons_True, IH.
Qed.

Lemma filter_Forall (l : list A) : Forall P (filter P l).
Proof.
  apply Forall_forall. intros x Hx.
  by apply list_elem_of_filter in Hx as [? _].
Qed.

Lemma filter_sublist_mono (l k : list A) :
  l `sublist_of` k -> filter P l `sublist_of` filter P k.
Proof.
  induction 1 as [|x l k _ IH|x l k _ IH]; [done| |].
  - rewrite !filter_cons. case_decide; [by constructor|done].
  - rewrite filter_cons. case_decide; [by constructor|done].
Qed.
End filter_facts.

Lemma GO_CATEGORIES_lookup (category aspect : string) :
  GO_CATEGORIES !! category = Some aspect <->
  (category = "BP" /\ aspect = "biological_process")
  \/ (category = "MF" /\ aspect = "molecular_function")
  \/ (category = "CC" /\ aspect = "cellular_component").
Proof.
  unfold GO_CATEGORIES. split.
  - intros H.
    apply lookup_insert_Some in H as [[<- <-]|[? H]]; [by left|].
    apply lookup_insert_Some in H as [[<- <-]|[? H]]; [by right; left|].
    apply lookup_singleton_Some in H as [<- <-]. by right; right.
  - by intros [[-> ->]|[[-> ->]|[-> ->]]].
Qed.

Lemma GO_CATEGORIES_unrecognized (category : string) :
  category ≠ "BP" -> category ≠ "MF" -> category ≠ "CC" ->
  GO_CATEGORIES !! category = None.
Proof.
  intros. unfold GO_CATEGORIES.
  rewrite !lookup_insert_ne by done. by rewrite lookup_singleton_ne.
Qed.

Lemma filter_by_category_aspect (go_terms : list Annotation) (category aspect : string) :
  GO_CATEGORIES !! category = Some aspect ->
  filter_by_category go_terms category
  = filter (fun t => goAspect t = Some aspect) go_terms.
Proof. intros H. unfold filter_by_category. by rewrite H. Qed.

(** C2: for a category code other than "BP", "MF" and "CC",
    [filter_by_category] returns its input list unchanged: the same
    records in the same order, and no error. *)
Theorem filter_by_category_unrecognized (go_terms : list Annotation) (category : string) :
  category ≠ "BP" -> category ≠ "MF" -> category ≠ "CC" ->
  filter_by_category go_terms category = go_terms.
Proof.
  intros Hbp Hmf Hcc. unfold filter_by_category.
  by rewrite GO_CATEGORIES_unrecognized.
Qed.

(** C3: for a recognized code, mapped by [GO_CATEGORIES] to [aspect]
    ("BP" to "biological_process", see the instance below), the output holds
    only records whose [goAspect] is [aspect], holds every such record of
    the input, is a subsequence of the input (relative order kept), and
    every subsequence of the input made of matching records is a
    subsequence of the output: it is exactly the matching subsequence. *)
Theorem filter_by_category_recognized
    (go_terms : list Annotation) (category aspect : string) :
  GO_CATEGORIES !! category = Some aspect ->
  let out := filter_by_category go_terms category in
  Forall (fun t => goAspect t = Some aspect) out
  /\ (forall t, t ∈ go_terms -> goAspect t = Some aspect -> t ∈ out)
  /\ out `sublist_of` go_terms
  /\ (forall l, l `sublist_of` go_terms ->
                Forall (fun t => goAspect t = Some aspect) l ->
                l `sublist_of` out).
Proof.
  intros Hc out. subst out.
  rewrite (filter_by_category_aspect _ _ _ Hc).
  split; [apply filter_Forall|].
  split; [intros t Hin Ht; by apply list_elem_of_filter|].
  split; [apply sublist_filter|].
  intros l Hsub Hall.
  rewrite <- (filter_Forall_id (fun t => goAspect t = Some aspect) l Hall).
  by apply filter_sublist_mono.
Qed.

(** C9: with a recognized category code, a record whose [goAspect] is
    absent is never in the output of [filter_by_category]: it is dropped
    without an error. *)
Theorem filter_by_category_drops_absent_aspect
    (go_terms : list Annotation) (category : string) (t : Annotation) :
  category ∈ ["BP"; "MF"; "CC"] ->
  goAspect t = None ->
  t ∉ filter_by_category go_terms category.
Proof.
  intros Hc Hnone Hin.
  assert (exists aspect, GO_CATEGORIES !! category = Some aspect) as [aspect Ha].
  { rewrite !elem_of_cons, elem_of_nil in Hc.
    destruct Hc as [->|[->|[->|[]]]]; eexists; reflexivity. }
  rewrite (filter_by_category_aspect _ _ _ Ha) in Hin.
  apply list_elem_of_filter in Hin as [Hasp _]. congruence.
Qed.

(** C10: [filter_by_category] is idempotent for every category string,
    recognized or not. *)
Theorem filter_by_category_idempotent (ts : list Annotation) (c : string) :
  filter_by_category (filter_by_category ts c) c = filter_by_category ts c.
Proof.
  unfold filter_by_category.
  destruct (GO_CATEGORIES !! c) as [aspect|]; [|done].
  apply filter_Forall_id, filter_Forall.
Qed.

Lemma filter_by_category_unrecognized_witness :
  filter_by_category [sample_bp; sample_no_aspect; sample_mf] "bp"
  = [sample_bp; sample_no_aspect; sample_mf].
Proof. apply filter_by_category_unrecognized; discriminate. Defined.

Lemma filter_by_category_recognized_witness :
  let go_terms := [sample_mf; sample_bp; sample_no_aspect; sample_bp] in
  let out := filter_by_category go_terms "BP" in
  Forall (fun t => goAspect t = Some "biological_process") out
  /\ (forall t, t ∈ go_terms -> goAspect t = Some "biological_process" -> t ∈ out)
  /\ out `sublist_of` go_terms
  /\ (forall l, l `sublist_of` go_terms ->
                Forall (fun t => goAspect t = Some "biological_process") l ->
                l `sublist_of` out).
Proof. apply filter_by_category_recognized. reflexivity. Defined.

Lemma filter_by_category_drops_absent_aspect_witness :
  sample_no_aspect ∉ filter_by_category [sample_mf; sample_no_aspect; sample_bp] "CC".
Proof.
  apply filter_by_category_drops_absent_aspect; [|reflexivity].
  set_solver.
Defined.

(** ** The fetcher *)

Lemma Exc_bind_raised {A B} (m : Exc A) (f : A -> Exc B) :
  raised (m ≫= f) <-> raised m \/ exists a, m = Return a /\ raised (f a).
Proof.
  destruct m as [a|e]; simpl; split.
  - intros H. right. by exists a.
  - intros [[e He]|(a' & Ha & H)]; [done|]. by inversion Ha; subst.
  - intros _. left. by exists e.
  - intros _. by exists e.
Qed.

Lemma Return_not_raised {A} (a : A) : ~ raised (Return a).
Proof. by intros [e He]. Qed.

Lemma Raise_raised {A} (e : exn) : raised (@Raise A e).
Proof. by exists e. Qed.

#[local] Hint Resolve Raise_raised : core.

Lemma mapM_Exc_raised {A B} (f : A -> Exc B) (l : list A) :
  raised (mapM f l) <-> Exists (fun x => raised (f x)) l.
Proof.
  induction l as [|x l IH]; simpl.
  - split; [intros []%Return_not_raised|by intros ?%Exists_nil].
  - rewrite Exists_cons, <- IH. destruct (f x) as [y|e]; simpl.
    + destruct (mapM f l) as [k|e]; simpl; split.
      * intros []%Return_not_raised.
      * by intros [[]%Return_not_raised|[]%Return_not_raised].
      * auto.
      * auto.
    + split; auto.
Qed.

Lemma Exists_raised_forallb {A B} (f : A -> Exc B) (g : A -> bool) (l : list A) :
  (forall x, raised (f x) <-> g x = false) ->
  Exists (fun x => raised (f x)) l <-> forallb g l = false.
Proof.
  intros Hfg. induction l as [|x l IH]; simpl.
  - split; [by intros ?%Exists_nil|done].
  - rewrite Exists_cons, IH, Hfg, andb_false_iff. done.
Qed.

Lemma str_field_spec (kw : gmap string json) (key : string) :
  (str_or_null (kw !! key) = true /\ exists v, str_field kw key = Return v)
  \/ (str_or_null (kw !! key) = false /\ str_field kw key = Raise ValidationError).
Proof.
  unfold str_field. destruct (kw !! key) as [[]|]; simpl; eauto.
Qed.

Lemma Annotation_init_raised (d : json) :
  raised (Annotation_init d) <-> decodable_record d = false.
Proof.
  destruct d as [| | | | | |kw]; simpl;
    try (split; [done|intros _; apply Raise_raised]).
  unfold Annotation_fields, forallb.
  repeat match goal with
  | |- context [str_field kw ?key] =>
      destruct (str_field_spec kw key) as [[-> [? ->]]|[-> ->]]; simpl;
      [|split; [done|intros _; apply Raise_raised]]
  end.
  split; [intros []%Return_not_raised|done].
Qed.

Lemma fetch_go_terms_resolve (uniprot_id : string) (env : HttpRequest -> HttpOutcome) :
  resolve env (fetch_go_terms uniprot_id)
  = fetch_outcome (env (quickgo_request uniprot_id)).
Proof.
  unfold fetch_go_terms, client_get, quickgo_request. simpl.
  by destruct (env _) as [|resp].
Qed.

Lemma fetch_go_terms_awaited (uniprot_id : string) (env : HttpRequest -> HttpOutcome) :
  awaited env (fetch_go_terms uniprot_id) = [quickgo_request uniprot_id].
Proof.
  unfold fetch_go_terms, client_get, quickgo_request. simpl.
  by destruct (env _) as [|resp].
Qed.

Lemma fetch_and_filter_resolve (req : Request) (uid : string)
    (env : HttpRequest -> HttpOutcome) :
  resolve env (fetch_and_filter req uid)
  = (fun _ => tt) <$> fetch_outcome (env (quickgo_request uid)).
Proof.
  unfold fetch_and_filter, fetch_go_terms, client_get, quickgo_request. simpl.
  destruct (env _) as [|resp]; [done|]. simpl.
  by destruct (raise_for_status resp ≫= _).
Qed.

Lemma py_iter_results_raised (v : json) :
  raised (py_iter v ≫= mapM Annotation_init) <-> decodable_results v = false.
Proof.
  destruct v as [| | | |s|items|m]; simpl;
    try (split; [done|intros _; apply Raise_raised]).
  - rewrite mapM_Exc_raised, bool_decide_eq_false.
    destruct s as [|c s]; simpl.
    + split; [by intros ?%Exists_nil|done].
    + split; [done|]. intros _. apply Exists_cons_hd, Raise_raised.
  - rewrite mapM_Exc_raised.
    apply Exists_raised_forallb, Annotation_init_raised.
  - rewrite mapM_Exc_raised, bool_decide_eq_false, <- length_map_to_list.
    destruct (map_to_list m) as [|[key v] kvs]; simpl.
    + split; [by intros ?%Exists_nil|done].
    + split; [done|]. intros _. apply Exists_cons_hd, Raise_raised.
Qed.

Lemma fetch_outcome_raised (o : HttpOutcome) :
  raised (fetch_outcome o) <->
  match o with
  | NoResponse => True
  | Responded resp =>
      is_success resp = false
      \/ content_json resp = None
      \/ exists data, content_json resp = Some data /\
           match results_of data with
           | None => True
           | Some v => decodable_results v = false
           end
  end.
Proof.
  destruct o as [|resp]; simpl; [split; auto|].
  unfold raise_for_status, resp_json.
  destruct (is_success resp); simpl; [|split; auto].
  destruct (content_json resp) as [data|]; simpl; [|split; auto].
  transitivity (match results_of data with
                | None => True
                | Some v => decodable_results v = false
                end).
  - destruct data as [| | | | | |m]; simpl; try (split; auto; fail).
    destruct (m !! "results") as [v|]; simpl; [|split; auto].
    apply py_iter_results_raised.
  - split.
    + intros H. right; right. by exists data.
    + intros [?|[?|(data' & [= <-] & H)]]; done.
Qed.

(** C8: for every identifier string, [fetch_go_terms] issues one query,
    to the fixed endpoint, whose parameters are exactly [geneProductId],
    equal to "UniProtKB:" followed by the identifier as given (no check
    of its format), and [limit], equal to 100. *)
Theorem fetch_go_terms_query (uniprot_id : string) (env : HttpRequest -> HttpOutcome) :
  exists q,
    awaited env (fetch_go_terms uniprot_id) = [q]
    /\ url q = "https://www.ebi.ac.uk/QuickGO/services/annotation/search"
    /\ params q !! "geneProductId" = Some (PStr ("UniProtKB:" ++ uniprot_id))
    /\ params q !! "limit" = Some (PInt 100)
    /\ dom (params q) = {[ "geneProductId"; "limit" ]}.
Proof.
  exists (quickgo_request uniprot_id).
  split; [apply fetch_go_terms_awaited|].
  unfold quickgo_request; simpl.
  split; [reflexivity|]. split; [apply lookup_insert_eq|]. split.
  - rewrite lookup_insert_ne by done. apply lookup_singleton_eq.
  - by rewrite dom_insert_L, dom_singleton_L.
Qed.

(** With a success status and the body [{"results": null}] the fetch
    raises: [None] is not iterable. *)
Example fetch_go_terms_null_results :
  resolve (fun _ => Responded null_results_response) (fetch_go_terms "P12345")
  = Raise TypeError.
Proof. reflexivity. Qed.

(** C7, as stated, fails: the response above makes [fetch_go_terms] raise
    although its status is a success, its body is JSON and the body has
    the [results] key. *)
Lemma fetch_go_terms_raises_outside_specified :
  let env := fun _ : HttpRequest => Responded null_results_response in
  ~ (raised (resolve env (fetch_go_terms "P12345"))
     <-> specified_fetch_failure (env (quickgo_request "P12345"))).
Proof.
  intros env [Hspec _].
  specialize (Hspec (ex_intro _ TypeError eq_refl)).
  destruct Hspec as (resp & [= <-] & [H|[H|(data & [= <-] & H)]]);
    discriminate H.
Qed.

(** C7, amended: [fetch_go_terms] raises exactly when its request gets no
    response, or the response has a non-success status, or a body that is
    not JSON, or a JSON body that is not an object with the key
    [results], or a [results] value the comprehension cannot turn into
    records ([decodable_results]).  It awaits a single request whatever
    the outcome (no retry), and the exception it raises leaves the caller
    [fetch_and_filter] unchanged (not swallowed). *)
Theorem fetch_go_terms_raises_iff (uniprot_id : string) (env : HttpRequest -> HttpOutcome) :
  (raised (resolve env (fetch_go_terms uniprot_id)) <->
   match env (quickgo_request uniprot_id) with
   | NoResponse => True
   | Responded resp =>
       is_success resp = false
       \/ content_json resp = None
       \/ exists data, content_json resp = Some data /\
            match results_of data with
            | None => True
            | Some v => decodable_results v = false
            end
   end)
  /\ awaited env (fetch_go_terms uniprot_id) = [quickgo_request uniprot_id]
  /\ (forall e req, resolve env (fetch_go_terms uniprot_id) = Raise e ->
                    resolve env (fetch_and_filter req uniprot_id) = Raise e).
Proof.
  split; [|split].
  - rewrite fetch_go_terms_resolve. apply fetch_outcome_raised.
  - apply fetch_go_terms_awaited.
  - intros e req. rewrite fetch_go_terms_resolve, fetch_and_filter_resolve.
    by intros ->.
Qed.

(** ** The aggregate operation *)

Section event_loop.
Variable net : nat -> HttpRequest -> HttpOutcome.
Variable req : Request.

(** A task of the request is suspended on its query; once answered it
    runs to its end, storing its terms unless its fetch raised. *)
Lemma fetch_and_filter_suspended (uid : string) :
  exists k,
    fetch_and_filter req uid = Await (quickgo_request uid) k
    /\ forall i d,
         advance (k (net i (quickgo_request uid))) d
         = match task_outcome net req i uid with
           | Return v => (Done (Return tt), <[uid := v]> d)
           | Raise e => (Done (Raise e), d)
           end.
Proof.
  eexists. split; [reflexivity|].
  intros i d. unfold task_outcome.
  rewrite fetch_go_terms_resolve. fold (quickgo_request uid).
  destruct (net i (quickgo_request uid)) as [|resp]; [done|]. simpl.
  by destruct (raise_for_status resp ≫= _).
Qed.

Lemma spawn_from (st : Loop) (uids : list string) :
  foldl (fun st c =>
           let '(c', d') := advance c (shared st) in
           mkLoop (tasks st ++ [c']) d' (note_failure (failed st) c')
                  (sent st ++ note_request c'))
        st (fetch_and_filter req <$> uids)
  = mkLoop (tasks st ++ (fetch_and_filter req <$> uids)) (shared st)
           (failed st) (sent st ++ (quickgo_request <$> uids)).
Proof.
  revert st. induction uids as [|uid uids IH]; intros st.
  - simpl. rewrite !app_nil_r. by destruct st.
  - rewrite fmap_cons. cbn [foldl]. rewrite IH.
    destruct (fetch_and_filter_suspended uid) as (k & -> & _).
    cbn [advance note_failure note_request tasks shared failed sent].
    rewrite <- !app_assoc. by destruct (failed st).
Qed.

Lemma spawn_tasks :
  spawn (fetch_and_filter req <$> ids req)
  = mkLoop (fetch_and_filter req <$> ids req) ∅ None
           (quickgo_request <$> ids req).
Proof. unfold spawn. by rewrite spawn_from. Qed.

Lemma resume_suspended (st : Loop) (i : nat) (uid : string) :
  tasks st !! i = Some (fetch_and_filter req uid) ->
  resume net st i
  = mkLoop (<[i := Done ((fun _ => tt) <$> task_outcome net req i uid)]> (tasks st))
           (match task_outcome net req i uid with
            | Return v => <[uid := v]> (shared st)
            | Raise _ => shared st
            end)
           (match failed st with
            | Some e => Some e
            | None => match task_outcome net req i uid with
                      | Return _ => None
                      | Raise e => Some e
                      end
            end)
           (sent st).
Proof.
  intros Hi. unfold resume. rewrite Hi.
  destruct (fetch_and_filter_suspended uid) as (k & -> & Hk).
  rewrite Hk. destruct (task_outcome net req i uid) as [v|e];
    cbn [note_failure note_request fmap Exc_fmap];
    rewrite app_nil_r; by destruct (failed st).
Qed.
Lemma task_after_snoc (done : list nat) (i j : nat) (uid : string) :
  i ≠ j -> task_after net req (done ++ [j]) i uid = task_after net req done i uid.
Proof.
  intros Hij. unfold task_after.
  destruct (decide (i ∈ done)) as [Hin|Hin].
  - rewrite decide_True; [done|]. apply elem_of_app. by left.
  - rewrite decide_False; [done|].
    intros [?|Hs%list_elem_of_singleton]%elem_of_app; [done|congruence].
Qed.

(** The loop state after the tasks of [done] completed, in that order. *)
Lemma loop_after (done : list nat) :
  NoDup done ->
  let st := map_go_terms_loop net done req in
  length (tasks st) = length (ids req)
  /\ (forall i uid, ids req !! i = Some uid ->
                    tasks st !! i = Some (task_after net req done i uid))
  /\ shared st = foldl (task_write net req) ∅ done
  /\ failed st = foldl (task_failure net req) None done
  /\ sent st = quickgo_request <$> ids req.
Proof.
  unfold map_go_terms_loop.
  induction done as [|j done IH] using rev_ind; intros Hnodup.
  - cbn [foldl]. rewrite spawn_tasks. cbn.
    split; [by rewrite length_fmap|]. split; [|done].
    intros i uid Hi. rewrite list_lookup_fmap, Hi. done.
  - apply NoDup_app in Hnodup as (Hdone & Hj & _).
    destruct (IH Hdone) as (Hlen & Htasks & Hshared & Hfailed & Hsent).
    clear IH. rewrite !foldl_snoc.
    set (st := foldl (resume net) _ done) in *.
    assert (j ∉ done) as Hjdone.
    { intros Hin. apply (Hj j Hin). apply list_elem_of_singleton. done. }
    unfold task_write at 1, task_failure at 1.
    destruct (ids req !! j) as [uid|] eqn:Hidj.
    + assert (tasks st !! j = Some (fetch_and_filter req uid)) as Hpending.
      { rewrite (Htasks j uid Hidj). unfold task_after.
        by rewrite decide_False. }
      rewrite (resume_suspended st j uid Hpending). cbn.
      rewrite <- Hshared, <- Hfailed.
      split; [by rewrite length_insert|]. split; [|done].
      intros i uid' Hi. destruct (decide (i = j)) as [->|Hij].
      * rewrite list_lookup_insert_eq
          by (rewrite Hlen; by apply lookup_lt_Some in Hidj).
        assert (uid' = uid) as -> by congruence.
        unfold task_after. rewrite decide_True; [done|].
        apply elem_of_app. right. by apply list_elem_of_singleton.
      * rewrite list_lookup_insert_ne by done.
        rewrite task_after_snoc by done. by apply Htasks.
    + assert (resume net st j = st) as ->.
      { unfold resume. rewrite lookup_ge_None_2; [done|].
        rewrite Hlen. by apply lookup_ge_None_1. }
      rewrite <- Hshared, <- Hfailed.
      split; [done|]. split; [|by destruct (failed st)].
      intros i uid' Hi. rewrite task_after_snoc by congruence.
      by apply Htasks.
Qed.
Lemma task_outcome_Return (i : nat) (uid : string) (terms : list Annotation) :
  resolve (net i) (fetch_go_terms uid) = Return terms ->
  task_outcome net req i uid = Return (filtered_terms req terms).
Proof. unfold task_outcome. by intros ->. Qed.

Lemma task_outcome_Raise (i : nat) (uid : string) (e : exn) :
  resolve (net i) (fetch_go_terms uid) = Raise e ->
  task_outcome net req i uid = Raise e.
Proof. unfold task_outcome. by intros ->. Qed.

Lemma task_failure_kept (l : list nat) (e : exn) :
  foldl (task_failure net req) (Some e) l = Some e.
Proof. induction l as [|i l IH]; [done|]. apply IH. Qed.

Lemma task_failure_found (l : list nat) (f : option exn) (i : nat)
    (uid : string) (e : exn) :
  i ∈ l -> ids req !! i = Some uid -> task_outcome net req i uid = Raise e ->
  is_Some (foldl (task_failure net req) f l).
Proof.
  intros Hin Hi Hout. revert f.
  induction l as [|j l IH]; intros f; [by apply elem_of_nil in Hin|].
  cbn [foldl]. apply elem_of_cons in Hin as [<-|Hin]; [|by apply IH].
  destruct f as [e'|]; cbn [task_failure].
  - rewrite task_failure_kept. by eexists.
  - rewrite Hi, Hout, task_failure_kept. by eexists.
Qed.

Lemma task_failure_none (l : list nat) :
  (forall i uid, ids req !! i = Some uid ->
                 exists v, task_outcome net req i uid = Return v) ->
  foldl (task_failure net req) None l = None.
Proof.
  intros Hok. induction l as [|i l IH]; [done|].
  cbn [foldl task_failure].
  destruct (ids req !! i) as [uid|] eqn:Hi; [|done].
  by destruct (Hok i uid Hi) as [v ->].
Qed.

(** After a full completion order every task is finished. *)
Lemma all_tasks_done (sched : list nat) :
  completion_order req sched ->
  forallb is_done (tasks (map_go_terms_loop net sched req)) = true.
Proof.
  intros Hperm.
  assert (NoDup sched) as Hnodup.
  { rewrite Hperm. apply NoDup_seq. }
  destruct (loop_after sched Hnodup) as (Hlen & Htasks & _).
  apply Is_true_true, forallb_True, Forall_lookup. intros i c Hc.
  assert (i < length (ids req)) as Hlt.
  { rewrite <- Hlen. by apply lookup_lt_Some in Hc. }
  destruct (lookup_lt_is_Some_2 _ _ Hlt) as [uid Hi].
  rewrite (Htasks i uid Hi) in Hc. injection Hc as <-.
  unfold task_after. rewrite decide_True; [done|].
  rewrite Hperm. apply elem_of_seq. lia.
Qed.

(** All fetches succeeding, [map_go_terms] returns the dict the tasks
    wrote in completion order. *)
Lemma map_go_terms_returns (sched : list nat) :
  completion_order req sched ->
  (forall i uid, ids req !! i = Some uid ->
                 exists terms, resolve (net i) (fetch_go_terms uid) = Return terms) ->
  map_go_terms net sched req
  = Some (Return (Result_init (foldl (task_write net req) ∅ sched))).
Proof.
  intros Hperm Hok. unfold map_go_terms, gather.
  assert (NoDup sched) as Hnodup.
  { rewrite Hperm. apply NoDup_seq. }
  destruct (loop_after sched Hnodup) as (_ & _ & Hshared & Hfailed & _).
  rewrite Hfailed, task_failure_none, (all_tasks_done sched Hperm), Hshared; [done|].
  intros i uid Hi. destruct (Hok i uid Hi) as [terms Hterms].
  eexists. by apply task_outcome_Return.
Qed.

(** Stores of tasks with different keys commute. *)
Lemma task_write_permutation (l1 l2 : list nat) :
  NoDup (ids req) -> l1 ≡ₚ l2 -> NoDup l1 ->
  forall d, foldl (task_write net req) d l1 = foldl (task_write net req) d l2.
Proof.
  intros Hids. induction 1 as [|i l1 l2 _ IH|i j l|l1 l2 l3 H12 IH12 _ IH23];
    intros Hnodup d.
  - done.
  - cbn [foldl]. apply IH. by apply NoDup_cons in Hnodup as [_ ?].
  - cbn [foldl]. f_equal.
    apply NoDup_cons in Hnodup as [Hj _].
    assert (j ≠ i) as Hji.
    { intros ->. apply Hj. apply list_elem_of_here. }
    unfold task_write.
    destruct (ids req !! i) as [uid_i|] eqn:Hi; [|done].
    destruct (ids req !! j) as [uid_j|] eqn:Hj'; [|done].
    destruct (task_outcome net req i uid_i) as [vi|]; [|done].
    destruct (task_outcome net req j uid_j) as [vj|]; [|done].
    apply insert_insert_ne. intros ->.
    apply Hji. by apply (NoDup_lookup (ids req) j i uid_j).
  - rewrite IH12 by done. apply IH23. by rewrite <- H12.
Qed.

(** With distinct identifiers and all fetches succeeding, the value
    returned does not depend on the completion order. *)
Lemma map_go_terms_order_independent (sched sched' : list nat) :
  NoDup (ids req) ->
  (forall i uid, ids req !! i = Some uid ->
                 exists terms, resolve (net i) (fetch_go_terms uid) = Return terms) ->
  completion_order req sched -> completion_order req sched' ->
  map_go_terms net sched req = map_go_terms net sched' req.
Proof.
  intros Hids Hok Hperm Hperm'.
  rewrite !map_go_terms_returns by done. do 3 f_equal.
  apply task_write_permutation; [done| |].
  - unfold completion_order in *. by rewrite Hperm, Hperm'.
  - rewrite Hperm. apply NoDup_seq.
Qed.
Lemma task_write_other (l : list nat) (d : gmap string (list Annotation))
    (uid : string) :
  (forall j, j ∈ l -> ids req !! j ≠ Some uid) ->
  foldl (task_write net req) d l !! uid = d !! uid.
Proof.
  revert d. induction l as [|j l IH]; intros d Hother; [done|].
  cbn [foldl]. rewrite IH.
  - unfold task_write. destruct (ids req !! j) as [uid'|] eqn:Hj; [|done].
    destruct (task_outcome net req j uid'); [|done].
    apply lookup_insert_ne. intros ->.
    apply (Hother j); [apply list_elem_of_here|done].
  - intros j' Hj'. apply Hother. by apply list_elem_of_further.
Qed.

(** No deduplication, later stores overwrite earlier ones: all fetches
    succeeding, the value under an identifier is what the last task
    started for it, in completion order, stored. *)
Lemma map_go_terms_last_store (l1 l2 : list nat) (i : nat) (uid : string)
    (terms : list Annotation) :
  completion_order req (l1 ++ i :: l2) ->
  (forall j u, ids req !! j = Some u ->
               exists ts, resolve (net j) (fetch_go_terms u) = Return ts) ->
  ids req !! i = Some uid ->
  (forall j, j ∈ l2 -> ids req !! j ≠ Some uid) ->
  resolve (net i) (fetch_go_terms uid) = Return terms ->
  exists r, map_go_terms net (l1 ++ i :: l2) req = Some (Return r)
            /\ results r !! uid = Some (filtered_terms req terms).
Proof.
  intros Hperm Hok Hi Hlater Hterms.
  rewrite (map_go_terms_returns _ Hperm Hok). eexists. split; [done|].
  cbn [results Result_init]. rewrite foldl_app. cbn [foldl].
  rewrite task_write_other by done.
  unfold task_write at 1. rewrite Hi, (task_outcome_Return _ _ _ Hterms).
  apply lookup_insert_eq.
Qed.
End event_loop.

Lemma resume_no_tasks (net : nat -> HttpRequest -> HttpOutcome)
    (st : Loop) (sched : list nat) :
  tasks st = [] -> foldl (resume net) st sched = st.
Proof.
  intros Hnil. induction sched as [|i sched IH]; [done|].
  cbn [foldl]. unfold resume at 2. rewrite Hnil. apply IH.
Qed.

(** C4: for every category value, [None] included, [map_go_terms] on an
    empty identifier list returns the empty mapping, and no request is
    sent. *)
Theorem map_go_terms_no_identifiers
    (net : nat -> HttpRequest -> HttpOutcome) (sched : list nat)
    (schema : string) (category : option string) :
  map_go_terms net sched (mkRequest schema [] category)
  = Some (Return (Result_init ∅))
  /\ sent (map_go_terms_loop net sched (mkRequest schema [] category)) = [].
Proof.
  unfold map_go_terms, map_go_terms_loop.
  rewrite resume_no_tasks by done. done.
Qed.



(** * Further properties *)

(** ** The category filter, continued *)

Lemma GO_CATEGORIES_injective (c1 c2 aspect : string) :
  GO_CATEGORIES !! c1 = Some aspect -> GO_CATEGORIES !! c2 = Some aspect -> c1 = c2.
Proof.
  intros H1%GO_CATEGORIES_lookup H2%GO_CATEGORIES_lookup.
  destruct H1 as [[-> ->]|[[-> ->]|[-> ->]]];
    destruct H2 as [[-> ?]|[[-> ?]|[-> ?]]]; done.
Qed.

(** X1: filtering by one recognized category and then by a different
    recognized category leaves nothing: the three categories select
    disjoint sets of records. *)
Theorem filter_by_category_disjoint (ts : list Annotation) (c1 c2 : string) :
  is_Some (GO_CATEGORIES !! c1) -> is_Some (GO_CATEGORIES !! c2) -> c1 ≠ c2 ->
  filter_by_category (filter_by_category ts c1) c2 = [].
Proof.
  intros [a1 H1] [a2 H2] Hne.
  rewrite (filter_by_category_aspect _ _ _ H1), (filter_by_category_aspect _ _ _ H2).
  rewrite list_filter_filter.
  induction ts as [|t ts IH]; [done|].
  rewrite filter_cons_False; [done|].
  intros [Ha2 Ha1]. apply Hne.
  apply (GO_CATEGORIES_injective c1 c2 a1); congruence.
Qed.

Lemma filter_by_category_disjoint_witness :
  filter_by_category
    (filter_by_category [sample_mf; sample_bp; sample_no_aspect; sample_bp] "BP") "MF"
  = [].
Proof.
  apply filter_by_category_disjoint; [by eexists|by eexists|discriminate].
Defined.

(** X2: two category filters commute, for any two category strings,
    recognized or not. *)
Theorem filter_by_category_commute (ts : list Annotation) (c1 c2 : string) :
  filter_by_category (filter_by_category ts c1) c2
  = filter_by_category (filter_by_category ts c2) c1.
Proof.
  unfold filter_by_category.
  destruct (GO_CATEGORIES !! c1) as [a1|], (GO_CATEGORIES !! c2) as [a2|]; try done.
  rewrite !list_filter_filter. apply list_filter_iff. tauto.
Qed.

(** X3: filtering a concatenation is concatenating the filtered parts, so
    filtering can be done piecewise. *)
Theorem filter_by_category_app (ts1 ts2 : list Annotation) (c : string) :
  filter_by_category (ts1 ++ ts2)%list c
  = (filter_by_category ts1 c ++ filter_by_category ts2 c)%list.
Proof.
  unfold filter_by_category.
  destruct (GO_CATEGORIES !! c); [apply filter_app|done].
Qed.

(** X4: the outputs for "BP", "MF" and "CC" together with the records
    whose aspect is none of the three mapped strings account for every
    record of the input exactly once. *)
Theorem filter_by_category_partition (ts : list Annotation) :
  length (filter_by_category ts "BP") + length (filter_by_category ts "MF")
  + length (filter_by_category ts "CC")
  + length (filter (fun t => ~ known_aspect t) ts)
  = length ts.
Proof.
  rewrite (filter_by_category_aspect ts "BP" "biological_process") by done.
  rewrite (filter_by_category_aspect ts "MF" "molecular_function") by done.
  rewrite (filter_by_category_aspect ts "CC" "cellular_component") by done.
  induction ts as [|t ts IH]; [done|].
  rewrite !filter_cons. unfold known_aspect in *.
  repeat case_decide; simpl; try lia; exfalso; try congruence; tauto.
Qed.

(** ** The fetcher, continued *)

Lemma str_field_accepted (kw : gmap string json) (key : string) :
  str_or_null (kw !! key) = true ->
  str_field kw key = Return (str_value kw key).
Proof.
  unfold str_field, str_value. by destruct (kw !! key) as [[]|].
Qed.

Lemma Annotation_init_record_of (d : json) :
  decodable_record d = true -> Annotation_init d = Return (record_of d).
Proof.
  destruct d as [| | | | | |kw]; try done.
  unfold decodable_record, Annotation_fields, forallb.
  rewrite !andb_true_iff. intros H. unfold Annotation_init, record_of.
  repeat match type of H with
  | _ /\ _ => let Hk := fresh "Hk" in destruct H as [Hk H];
              rewrite (str_field_accepted _ _ Hk)
  end.
  done.
Qed.

Lemma mapM_Exc_Return {A B} (f : A -> Exc B) (g : A -> B) (l : list A) :
  Forall (fun x => f x = Return (g x)) l -> mapM f l = Return (g <$> l).
Proof.
  induction 1 as [|x l Hx _ IH]; [done|]. simpl. by rewrite Hx, IH.
Qed.

Lemma str_field_insert_ne (kw : gmap string json) (k key : string) (v : json) :
  k ≠ key -> str_field (<[k := v]> kw) key = str_field kw key.
Proof. intros Hne. unfold str_field. by rewrite lookup_insert_ne. Qed.

Lemma str_field_null_absent (kw : gmap string json) (k key : string) :
  str_field (<[k := JNull]> kw) key = str_field (delete k kw) key.
Proof.
  unfold str_field. destruct (decide (k = key)) as [->|Hne].
  - by rewrite lookup_insert_eq, lookup_delete_eq.
  - by rewrite lookup_insert_ne, lookup_delete_ne.
Qed.

(** X5: when the service answers with a success status and a JSON object
    whose [results] is an array of objects holding only strings or nulls
    under the field names, [fetch_go_terms] returns one record per array
    element, in the order of the array, each field being the string the
    element holds under that name and absent otherwise. *)
Theorem fetch_go_terms_returns_records
    (uniprot_id : string) (env : HttpRequest -> HttpOutcome)
    (resp : Response) (data : json) (items : list json) :
  env (quickgo_request uniprot_id) = Responded resp ->
  is_success resp = true ->
  content_json resp = Some data ->
  results_of data = Some (JArr items) ->
  forallb decodable_record items = true ->
  resolve env (fetch_go_terms uniprot_id) = Return (record_of <$> items).
Proof.
  intros Henv Hok Hjson Hres Hdec.
  rewrite fetch_go_terms_resolve, Henv. unfold fetch_outcome, raise_for_status, resp_json.
  rewrite Hok, Hjson. cbn [mbind Exc_bind].
  destruct data as [| | | | | |m]; try done. cbn in Hres.
  unfold getitem. rewrite Hres. cbn [mbind Exc_bind py_iter].
  apply mapM_Exc_Return, Forall_forall. intros d Hd.
  apply Annotation_init_record_of.
  apply Is_true_true_1. apply Is_true_true_2, forallb_True in Hdec.
  by apply (proj1 (Forall_forall _ _) Hdec d Hd).
Qed.

Lemma fetch_go_terms_returns_records_witness :
  resolve (sample_net 0) (fetch_go_terms "P12345") = Return (record_of <$> three_records).
Proof.
  apply (fetch_go_terms_returns_records "P12345" (sample_net 0)
           (ok_response three_records)
           (JObj {[ "results" := JArr three_records ]}) three_records);
    reflexivity.
Defined.

(** X6: a key of a response object that is not a field name of
    [Annotation] has no effect on the record built from the object, nor on
    whether building it raises. *)
Theorem Annotation_init_ignores_unknown_key
    (kw : gmap string json) (k : string) (v : json) :
  k ∉ Annotation_fields ->
  Annotation_init (JObj (<[k := v]> kw)) = Annotation_init (JObj kw).
Proof.
  intros Hk. unfold Annotation_init.
  rewrite !(str_field_insert_ne kw k _ v);
    try (intros ->; apply Hk; unfold Annotation_fields; set_solver).
  done.
Qed.

Lemma Annotation_init_ignores_unknown_key_witness :
  Annotation_init (JObj (<[ "extensions" := JArr [] ]>
                           {[ "goId" := JStr "GO:0006103" ]}))
  = Annotation_init (JObj {[ "goId" := JStr "GO:0006103" ]}).
Proof.
  apply Annotation_init_ignores_unknown_key.
  unfold Annotation_fields. intros H.
  repeat (apply elem_of_cons in H as [H|H]; [discriminate H|]).
  by apply elem_of_nil in H.
Defined.

(** X7: a key holding [null] is treated as an absent key: the record
    built, or the exception raised, is the same. *)
Theorem Annotation_init_null_is_absent (kw : gmap string json) (k : string) :
  Annotation_init (JObj (<[k := JNull]> kw)) = Annotation_init (JObj (delete k kw)).
Proof.
  unfold Annotation_init. by rewrite !str_field_null_absent.
Qed.

(** X8: the status is checked before the body is read: a response with a
    status outside 200..299 makes [fetch_go_terms] raise [HTTPStatusError]
    with that status, whatever the body holds. *)
Theorem fetch_go_terms_status_first
    (uniprot_id : string) (env : HttpRequest -> HttpOutcome) (resp : Response) :
  env (quickgo_request uniprot_id) = Responded resp ->
  (status_code resp < 200 \/ 299 < status_code resp)%Z ->
  resolve env (fetch_go_terms uniprot_id)
  = Raise (HTTPStatusError (status_code resp)).
Proof.
  intros Henv Hstatus. rewrite fetch_go_terms_resolve, Henv.
  unfold fetch_outcome, raise_for_status, is_success.
  destruct Hstatus as [Hlo|Hhi].
  - by rewrite (bool_decide_eq_false_2 (200 <= status_code resp)%Z) by lia.
  - rewrite (bool_decide_eq_false_2 (status_code resp <= 299)%Z) by lia.
    by rewrite andb_false_r.
Qed.

Lemma fetch_go_terms_status_first_witness :
  resolve (fun _ => Responded (mkResponse 404 (Some (JObj {[ "results" := JArr [] ]}))))
          (fetch_go_terms "P12345")
  = Raise (HTTPStatusError 404).
Proof.
  apply (fetch_go_terms_status_first "P12345" _
           (mkResponse 404 (Some (JObj {[ "results" := JArr [] ]})))).
  - reflexivity.
  - right. reflexivity.
Defined.

(** ** The aggregate operation, continued *)

Section gather_facts.
Variable net : nat -> HttpRequest -> HttpOutcome.
Variable req : Request.

Lemma is_done_task_after (done : list nat) (i : nat) (uid : string) :
  is_done (task_after net req done i uid) = bool_decide (i ∈ done).
Proof.
  unfold task_after. destruct (decide (i ∈ done)) as [Hin|Hin].
  - by rewrite bool_decide_eq_true_2.
  - rewrite bool_decide_eq_false_2 by done.
    by destruct (fetch_and_filter_suspended net req uid) as (k & -> & _).
Qed.

(** The future of [gather] is resolved exactly when every position of
    [req.ids] occurs in the schedule. *)
Lemma all_done_iff (sched : list nat) :
  NoDup sched ->
  forallb is_done (tasks (map_go_terms_loop net sched req))
  = forallb (fun i => bool_decide (i ∈ sched)) (seq 0 (length (ids req))).
Proof.
  intros Hnodup.
  destruct (loop_after net req sched Hnodup) as (Hlen & Htasks & _).
  apply eq_bool_prop_intro. rewrite !forallb_True, Forall_lookup, Forall_seq.
  split.
  - intros Hall i [_ Hlt]. simpl in Hlt.
    destruct (lookup_lt_is_Some_2 _ _ Hlt) as [uid Hi].
    specialize (Hall i _ (Htasks i uid Hi)).
    by rewrite is_done_task_after in Hall.
  - intros Hall i c Hc.
    assert (i < length (ids req)) as Hlt.
    { rewrite <- Hlen. by apply lookup_lt_Some in Hc. }
    destruct (lookup_lt_is_Some_2 _ _ Hlt) as [uid Hi].
    rewrite (Htasks i uid Hi) in Hc. injection Hc as <-.
    rewrite is_done_task_after. apply Hall. simpl. lia.
Qed.

(** [map_go_terms] in terms of the outcomes of the tasks. *)
Lemma map_go_terms_unfold (sched : list nat) :
  NoDup sched ->
  map_go_terms net sched req
  = match foldl (task_failure net req) None sched with
    | Some e => Some (Raise e)
    | None =>
        if forallb (fun i => bool_decide (i ∈ sched)) (seq 0 (length (ids req)))
        then Some (Return (Result_init (foldl (task_write net req) ∅ sched)))
        else None
    end.
Proof.
  intros Hnodup. unfold map_go_terms, gather.
  rewrite (all_done_iff sched Hnodup).
  destruct (loop_after net req sched Hnodup) as (_ & _ & -> & -> & _).
  destruct (foldl (task_failure net req) None sched); [done|].
  by destruct (forallb _ _).
Qed.

Lemma task_failure_none_in (l : list nat) :
  (forall i uid, i ∈ l -> ids req !! i = Some uid ->
                 exists v, task_outcome net req i uid = Return v) ->
  foldl (task_failure net req) None l = None.
Proof.
  induction l as [|i l IH]; intros Hok; [done|].
  cbn [foldl task_failure].
  destruct (ids req !! i) as [uid|] eqn:Hi.
  - destruct (Hok i uid (list_elem_of_here _ _) Hi) as [v ->].
    apply IH. intros j u Hj. apply Hok. by apply list_elem_of_further.
  - apply IH. intros j u Hj. apply Hok. by apply list_elem_of_further.
Qed.

Lemma task_failure_none_inv (l : list nat) (i : nat) (uid : string) :
  foldl (task_failure net req) None l = None ->
  i ∈ l -> ids req !! i = Some uid ->
  exists v, task_outcome net req i uid = Return v.
Proof.
  intros Hnone Hin Hi.
  destruct (task_outcome net req i uid) as [v|e] eqn:Hout; [by exists v|].
  destruct (task_failure_found net req l None i uid e Hin Hi Hout) as [e' He'].
  congruence.
Qed.

Lemma task_write_lookup (l : list nat) (d : gmap string (list Annotation))
    (uid : string) (ts : list Annotation) :
  foldl (task_write net req) d l !! uid = Some ts ->
  d !! uid = Some ts
  \/ exists i, i ∈ l /\ ids req !! i = Some uid
               /\ task_outcome net req i uid = Return ts.
Proof.
  revert d. induction l as [|i l IH]; intros d Hlook; [by left|].
  cbn [foldl] in Hlook. apply IH in Hlook as [Hlook|(j & Hj & Hid & Hout)].
  - unfold task_write in Hlook.
    destruct (ids req !! i) as [uid'|] eqn:Hi; [|by left].
    destruct (task_outcome net req i uid') as [v|] eqn:Hout; [|by left].
    apply lookup_insert_Some in Hlook as [[-> ->]|[_ Hlook]]; [|by left].
    right. exists i. split; [apply list_elem_of_here|done].
  - right. exists j. split; [by apply list_elem_of_further|done].
Qed.

Lemma task_write_dom (l : list nat) (d : gmap string (list Annotation))
    (uid : string) :
  (forall i u, i ∈ l -> ids req !! i = Some u ->
               exists v, task_outcome net req i u = Return v) ->
  uid ∈ dom (foldl (task_write net req) d l)
  <-> uid ∈ dom d \/ exists i, i ∈ l /\ ids req !! i = Some uid.
Proof.
  revert d. induction l as [|i l IH]; intros d Hok.
  - cbn [foldl]. split; [by left|].
    intros [?|(i & []%elem_of_nil & _)]. done.
  - cbn [foldl]. rewrite IH
      by (intros j u Hj; apply Hok; by apply list_elem_of_further).
    unfold task_write. destruct (ids req !! i) as [uid'|] eqn:Hi.
    + destruct (Hok i uid' (list_elem_of_here _ _) Hi) as [v ->].
      rewrite dom_insert_L, elem_of_union, elem_of_singleton. split.
      * intros [[->|?]|(j & Hj & Hid)]; [|by left|].
        -- right. exists i. split; [apply list_elem_of_here|done].
        -- right. exists j. split; [by apply list_elem_of_further|done].
      * intros [?|(j & [->|Hj]%elem_of_cons & Hid)]; [by left; right| |].
        -- left; left. congruence.
        -- right. by exists j.
    + split.
      * intros [?|(j & Hj & Hid)]; [by left|].
        right. exists j. split; [by apply list_elem_of_further|done].
      * intros [?|(j & [->|Hj]%elem_of_cons & Hid)]; [by left|congruence|].
        right. by exists j.
Qed.

(** Whatever events arrive, a task is either still suspended on its
    query or finished, and the requests sent are those of the start. *)
Lemma loop_requests (sched : list nat) :
  let st := map_go_terms_loop net sched req in
  sent st = quickgo_request <$> ids req
  /\ forall i c, tasks st !! i = Some c ->
       is_done c = true \/ exists uid, c = fetch_and_filter req uid.
Proof.
  unfold map_go_terms_loop.
  induction sched as [|j sched IH] using rev_ind.
  - cbn [foldl]. rewrite (spawn_tasks net). cbn. split; [done|].
    intros i c Hc. right. apply list_lookup_fmap_Some in Hc as (uid & Hc & _).
    by exists uid.
  - rewrite foldl_snoc. destruct IH as [Hsent Htasks].
    set (st := foldl (resume net) _ sched) in *.
    destruct (tasks st !! j) as [c|] eqn:Hj.
    + destruct (Htasks j c Hj) as [Hdone|[uid ->]].
      * assert (resume net st j = st) as ->; [|done].
        unfold resume. rewrite Hj. by destruct c.
      * rewrite (resume_suspended net req st j uid Hj). cbn.
        split; [done|]. intros i c Hc.
        destruct (decide (i = j)) as [->|Hij].
        -- rewrite list_lookup_insert_eq in Hc by (by eapply lookup_lt_Some).
           injection Hc as <-. by left.
        -- rewrite list_lookup_insert_ne in Hc by done. by apply (Htasks i).
    + assert (resume net st j = st) as ->; [|done].
      unfold resume. by rewrite Hj.
Qed.
End gather_facts.

Lemma fetches_return_outcomes (net : nat -> HttpRequest -> HttpOutcome)
    (req : Request) (l : list nat) :
  (forall j u, j ∈ l -> ids req !! j = Some u ->
               exists ts, resolve (net j) (fetch_go_terms u) = Return ts) ->
  forall j u, j ∈ l -> ids req !! j = Some u ->
              exists v, task_outcome net req j u = Return v.
Proof.
  intros Hok j u Hj Hu. destruct (Hok j u Hj Hu) as [ts Hts].
  eexists. by apply task_outcome_Return.
Qed.

Lemma completion_order_NoDup (req : Request) (sched : list nat) :
  completion_order req sched -> NoDup sched.
Proof. intros Hperm. rewrite Hperm. apply NoDup_seq. Qed.

Lemma completion_order_elem (req : Request) (sched : list nat) (i : nat) :
  completion_order req sched -> i ∈ sched <-> i < length (ids req).
Proof. intros Hperm. rewrite Hperm, elem_of_seq. lia. Qed.

(** What a returned [Result] tells about the run that produced it. *)
Lemma map_go_terms_returned (net : nat -> HttpRequest -> HttpOutcome)
    (req : Request) (sched : list nat) (r : Result) :
  NoDup sched ->
  map_go_terms net sched req = Some (Return r) ->
  foldl (task_failure net req) None sched = None
  /\ r = Result_init (foldl (task_write net req) ∅ sched).
Proof.
  intros Hnodup. rewrite (map_go_terms_unfold net req sched Hnodup).
  destruct (foldl (task_failure net req) None sched); [done|].
  destruct (forallb _ _); [|done]. by intros [= <-].
Qed.

(** X9: whatever the order of completions, and whether fetches fail or
    not, [map_go_terms] sends exactly one request per element of
    [req.ids], in list order: duplicates are not merged, nothing is sent
    twice, and a failure stops no request of another task. *)
Theorem map_go_terms_requests (net : nat -> HttpRequest -> HttpOutcome)
    (sched : list nat) (req : Request) :
  sent (map_go_terms_loop net sched req) = quickgo_request <$> ids req.
Proof. apply (loop_requests net req sched). Qed.

(** X10: [map_go_terms] raises the exception of the first fetch that
    fails, in completion order, as soon as it fails: the fetches that
    complete later, or never, have no influence. *)
Theorem map_go_terms_first_failure (net : nat -> HttpRequest -> HttpOutcome)
    (req : Request) (l1 l2 : list nat) (i : nat) (uid : string) (e : exn) :
  NoDup (l1 ++ i :: l2) ->
  (forall j u, j ∈ l1 -> ids req !! j = Some u ->
               exists ts, resolve (net j) (fetch_go_terms u) = Return ts) ->
  ids req !! i = Some uid ->
  resolve (net i) (fetch_go_terms uid) = Raise e ->
  map_go_terms net (l1 ++ i :: l2) req = Some (Raise e).
Proof.
  intros Hnodup Hok Hi Hfail.
  rewrite (map_go_terms_unfold net req _ Hnodup), foldl_app.
  rewrite (task_failure_none_in net req l1 (fetches_return_outcomes net req l1 Hok)).
  cbn [foldl task_failure].
  by rewrite Hi, (task_outcome_Raise net req i uid e Hfail), task_failure_kept.
Qed.

Lemma map_go_terms_first_failure_witness :
  map_go_terms failing_net ([0] ++ 1 :: [])
    (mkRequest "" ["P12345"; "Q9H0H5"; "P04637"] None)
  = Some (Raise (HTTPStatusError 503)).
Proof.
  apply (map_go_terms_first_failure failing_net _ [0] [] 1 "Q9H0H5").
  - apply (NoDup_seq 0 2).
  - intros j u Hj%list_elem_of_singleton Hu. subst j.
    injection Hu as <-. eexists. reflexivity.
  - reflexivity.
  - reflexivity.
Defined.

(** X11: while a fetch is outstanding and none has failed,
    [map_go_terms] has not returned: no result is produced from the
    fetches completed so far. *)
Theorem map_go_terms_waits_for_all (net : nat -> HttpRequest -> HttpOutcome)
    (req : Request) (sched : list nat) (i : nat) (uid : string) :
  NoDup sched ->
  ids req !! i = Some uid ->
  i ∉ sched ->
  (forall j u, j ∈ sched -> ids req !! j = Some u ->
               exists ts, resolve (net j) (fetch_go_terms u) = Return ts) ->
  map_go_terms net sched req = None.
Proof.
  intros Hnodup Hi Hout Hok.
  rewrite (map_go_terms_unfold net req _ Hnodup).
  rewrite (task_failure_none_in net req sched (fetches_return_outcomes net req sched Hok)).
  destruct (forallb _ _) eqn:Hall; [|done].
  apply Is_true_true_2, forallb_True in Hall.
  rewrite Forall_seq in Hall.
  apply lookup_lt_Some in Hi.
  specialize (Hall i ltac:(simpl; lia)).
  by apply bool_decide_unpack in Hall.
Qed.

Lemma map_go_terms_waits_for_all_witness :
  map_go_terms sample_net [1] (mkRequest "" ["P12345"; "Q9H0H5"] None) = None.
Proof.
  apply (map_go_terms_waits_for_all sample_net _ [1] 0 "P12345").
  - apply (NoDup_seq 1 1).
  - reflexivity.
  - intros H%list_elem_of_singleton. discriminate H.
  - intros j u Hj%list_elem_of_singleton Hu. subst j.
    injection Hu as <-. eexists. reflexivity.
Defined.

Lemma not_all_scheduled (n : nat) (sched : list nat) (i : nat) :
  i < n -> i ∉ sched ->
  forallb (fun j => bool_decide (j ∈ sched)) (seq 0 n) = false.
Proof.
  intros Hlt Hout. destruct (forallb _ _) eqn:Hall; [|done].
  apply Is_true_true_2, forallb_True in Hall. rewrite Forall_seq in Hall.
  specialize (Hall i ltac:(lia)). by apply bool_decide_unpack in Hall.
Qed.

(** A [Result] is returned only once every task has completed. *)
Lemma map_go_terms_returned_all (net : nat -> HttpRequest -> HttpOutcome)
    (req : Request) (sched : list nat) (r : Result) (i : nat) :
  NoDup sched ->
  map_go_terms net sched req = Some (Return r) ->
  i < length (ids req) -> i ∈ sched.
Proof.
  intros Hnodup Hret Hlt. rewrite (map_go_terms_unfold net req sched Hnodup) in Hret.
  destruct (foldl (task_failure net req) None sched); [done|].
  destruct (decide (i ∈ sched)) as [|Hout]; [done|].
  by rewrite (not_all_scheduled _ sched i Hlt Hout) in Hret.
Qed.

(** X12: whenever [map_go_terms] returns, at whatever moment of the run,
    the keys of the mapping are exactly the identifiers of the request:
    none is missing and none is added. *)
Theorem map_go_terms_keys (net : nat -> HttpRequest -> HttpOutcome)
    (req : Request) (sched : list nat) (r : Result) :
  NoDup sched ->
  map_go_terms net sched req = Some (Return r) ->
  dom (results r) = list_to_set (ids req).
Proof.
  intros Hnodup Hret.
  destruct (map_go_terms_returned net req sched r Hnodup Hret) as [Hnone ->].
  cbn [results Result_init]. apply set_eq. intros uid.
  rewrite task_write_dom, dom_empty_L, elem_of_list_to_set.
  - split.
    + intros [[]%elem_of_empty|(i & _ & Hi)]. by eapply list_elem_of_lookup_2.
    + intros (i & Hi)%list_elem_of_lookup_1. right. exists i. split; [|done].
      apply (map_go_terms_returned_all net req sched _ i Hnodup Hret).
      by eapply lookup_lt_Some.
  - intros i u Hin Hi. by apply (task_failure_none_inv net req sched).
Qed.

Lemma map_go_terms_keys_witness :
  exists r,
    map_go_terms sample_net [1; 0] (mkRequest "" ["P12345"; "Q9H0H5"] (Some "MF"))
    = Some (Return r)
    /\ dom (results r) = list_to_set ["P12345"; "Q9H0H5"].
Proof.
  eexists. split; [reflexivity|].
  apply (map_go_terms_keys sample_net
           (mkRequest "" ["P12345"; "Q9H0H5"] (Some "MF")) [1; 0]).
  - apply NoDup_cons. split; [|apply (NoDup_seq 0 1)].
    intros H%list_elem_of_singleton. discriminate H.
  - reflexivity.
Defined.

Lemma filtered_terms_recognized (req : Request) (c aspect : string)
    (terms : list Annotation) :
  category req = Some c -> GO_CATEGORIES !! c = Some aspect ->
  filtered_terms req terms = filter (fun t => goAspect t = Some aspect) terms.
Proof.
  intros Hc Ha. unfold filtered_terms. rewrite Hc.
  destruct (truthy c) eqn:Ht.
  - by apply filter_by_category_aspect.
  - unfold truthy in Ht. apply negb_false_iff, String.eqb_eq in Ht. by subst c.
Qed.

Lemma filtered_terms_unrecognized (schema : string) (uids : list string)
    (c : string) (terms : list Annotation) :
  GO_CATEGORIES !! c = None ->
  filtered_terms (mkRequest schema uids (Some c)) terms = terms.
Proof.
  intros Hc. unfold filtered_terms, filter_by_category. cbn [category].
  rewrite Hc. by destruct (truthy c).
Qed.

Lemma filtered_terms_sublist (req : Request) (terms : list Annotation) :
  filtered_terms req terms `sublist_of` terms.
Proof.
  unfold filtered_terms, filter_by_category.
  destruct (category req) as [c|]; [|done].
  destruct (truthy c); [|done].
  destruct (GO_CATEGORIES !! c); [apply sublist_filter|done].
Qed.

(** X13: every list of a returned mapping is what one fetch for its key
    returned, passed through the filter of the request: a subsequence of
    the fetched records, nothing added and nothing reordered. *)
Theorem map_go_terms_values_fetched (net : nat -> HttpRequest -> HttpOutcome)
    (req : Request) (sched : list nat) (r : Result)
    (uid : string) (ts : list Annotation) :
  completion_order req sched ->
  map_go_terms net sched req = Some (Return r) ->
  results r !! uid = Some ts ->
  exists i terms,
    ids req !! i = Some uid
    /\ resolve (net i) (fetch_go_terms uid) = Return terms
    /\ ts = filtered_terms req terms
    /\ ts `sublist_of` terms.
Proof.
  intros Hperm Hret Hts.
  destruct (map_go_terms_returned net req sched r
              (completion_order_NoDup req sched Hperm) Hret) as [_ ->].
  cbn [results Result_init] in Hts.
  apply task_write_lookup in Hts as [Hts|(i & _ & Hi & Hout)];
    [by rewrite lookup_empty in Hts|].
  unfold task_outcome in Hout.
  destruct (resolve (net i) (fetch_go_terms uid)) as [terms|] eqn:Hfetch; [|done].
  injection Hout as <-. exists i, terms.
  repeat split; try done. apply filtered_terms_sublist.
Qed.

Lemma map_go_terms_values_fetched_witness :
  exists i terms,
    [ "P12345"; "Q9H0H5" ] !! i = Some "Q9H0H5"
    /\ resolve (sample_net i) (fetch_go_terms "Q9H0H5") = Return terms
    /\ filter_by_category (record_of <$> five_records) "MF"
       = filtered_terms (mkRequest "" ["P12345"; "Q9H0H5"] (Some "MF")) terms
    /\ filter_by_category (record_of <$> five_records) "MF" `sublist_of` terms.
Proof.
  apply (map_go_terms_values_fetched sample_net
           (mkRequest "" ["P12345"; "Q9H0H5"] (Some "MF")) [1; 0]
           (Result_init
              (foldl (task_write sample_net
                        (mkRequest "" ["P12345"; "Q9H0H5"] (Some "MF")))
                     ∅ [1; 0]))
           "Q9H0H5").
  - unfold completion_order. simpl. apply perm_swap.
  - reflexivity.
  - reflexivity.
Defined.

(** X14: with a recognized category in the request, every record of
    every list of a returned mapping has the aspect the category maps
    to. *)
Theorem map_go_terms_values_match_category
    (net : nat -> HttpRequest -> HttpOutcome) (req : Request) (sched : list nat)
    (c aspect : string) (r : Result) (uid : string) (ts : list Annotation) :
  completion_order req sched ->
  category req = Some c ->
  GO_CATEGORIES !! c = Some aspect ->
  map_go_terms net sched req = Some (Return r) ->
  results r !! uid = Some ts ->
  Forall (fun t => goAspect t = Some aspect) ts.
Proof.
  intros Hperm Hc Ha Hret Hts.
  destruct (map_go_terms_returned net req sched r
              (completion_order_NoDup req sched Hperm) Hret) as [_ ->].
  cbn [results Result_init] in Hts.
  apply task_write_lookup in Hts as [Hts|(i & _ & Hi & Hout)];
    [by rewrite lookup_empty in Hts|].
  unfold task_outcome in Hout.
  destruct (resolve (net i) (fetch_go_terms uid)) as [terms|]; [|done].
  injection Hout as <-.
  rewrite (filtered_terms_recognized req c aspect terms Hc Ha).
  apply filter_Forall.
Qed.

Lemma map_go_terms_values_match_category_witness :
  Forall (fun t => goAspect t = Some "cellular_component")
         (filter_by_category (record_of <$> five_records) "CC").
Proof.
  apply (map_go_terms_values_match_category sample_net
           (mkRequest "" ["P12345"; "Q9H0H5"] (Some "CC")) [0; 1]
           "CC" "cellular_component"
           (Result_init
              (foldl (task_write sample_net
                        (mkRequest "" ["P12345"; "Q9H0H5"] (Some "CC")))
                     ∅ [0; 1]))
           "Q9H0H5").
  - unfold completion_order. simpl. reflexivity.
  - reflexivity.
  - reflexivity.
  - reflexivity.
  - reflexivity.
Defined.

Lemma task_outcome_unrecognized (net : nat -> HttpRequest -> HttpOutcome)
    (schema : string) (uids : list string) (c : string) (i : nat) (uid : string) :
  GO_CATEGORIES !! c = None ->
  task_outcome net (mkRequest schema uids (Some c)) i uid
  = task_outcome net (mkRequest schema uids None) i uid.
Proof.
  intros Hc. unfold task_outcome.
  destruct (resolve (net i) (fetch_go_terms uid)) as [terms|]; [|done].
  cbn [fmap Exc_fmap]. f_equal.
  by rewrite (filtered_terms_unrecognized schema uids c terms Hc).
Qed.

(** X15: a category that is not a key of [GO_CATEGORIES], the empty
    string included, changes nothing: [map_go_terms] behaves as with no
    category, at every moment of the run. *)
Theorem map_go_terms_unrecognized_category
    (net : nat -> HttpRequest -> HttpOutcome) (sched : list nat)
    (schema : string) (uids : list string) (c : string) :
  NoDup sched ->
  GO_CATEGORIES !! c = None ->
  map_go_terms net sched (mkRequest schema uids (Some c))
  = map_go_terms net sched (mkRequest schema uids None).
Proof.
  intros Hnodup Hc. rewrite !map_go_terms_unfold by done. cbn [ids].
  assert (forall f, foldl (task_failure net (mkRequest schema uids (Some c))) f sched
                    = foldl (task_failure net (mkRequest schema uids None)) f sched)
    as ->.
  { clear Hnodup. induction sched as [|i l IH]; intros f; [done|].
    cbn [foldl]. rewrite IH. f_equal. unfold task_failure. cbn [ids].
    destruct f; [done|]. destruct (uids !! i) as [uid|]; [|done].
    by rewrite task_outcome_unrecognized. }
  assert (forall d, foldl (task_write net (mkRequest schema uids (Some c))) d sched
                    = foldl (task_write net (mkRequest schema uids None)) d sched)
    as ->; [|done].
  clear Hnodup. induction sched as [|i l IH]; intros d; [done|].
  cbn [foldl]. rewrite IH. f_equal. unfold task_write. cbn [ids].
  destruct (uids !! i) as [uid|]; [|done].
  by rewrite task_outcome_unrecognized.
Qed.

Lemma map_go_terms_unrecognized_category_witness :
  map_go_terms sample_net [1; 0] (mkRequest "" ["P12345"; "Q9H0H5"] (Some "bp"))
  = map_go_terms sample_net [1; 0] (mkRequest "" ["P12345"; "Q9H0H5"] None).
Proof.
  apply map_go_terms_unrecognized_category.
  - apply NoDup_cons. split; [|apply (NoDup_seq 0 1)].
    intros H%list_elem_of_singleton. discriminate H.
  - reflexivity.
Defined.

(** ** The aggregate operation: failure and the barrier of [gather] *)

(** C1: if the fetch of any one identifier of the batch raises, then
    [map_go_terms] never returns a [Result], at no moment of the run and
    in no order of completions, so no partial mapping reaches the caller;
    and from the moment the failing fetch has completed, [map_go_terms]
    has raised. *)
Theorem map_go_terms_fails_with_any_fetch
    (net : nat -> HttpRequest -> HttpOutcome) (req : Request)
    (sched : list nat) (i : nat) (uid : string) (e : exn) :
  NoDup sched ->
  ids req !! i = Some uid ->
  resolve (net i) (fetch_go_terms uid) = Raise e ->
  (forall r, map_go_terms net sched req <> Some (Return r))
  /\ (i ∈ sched -> exists e', map_go_terms net sched req = Some (Raise e')).
Proof.
  intros Hnodup Hi Hfetch.
  rewrite (map_go_terms_unfold net req sched Hnodup).
  destruct (decide (i ∈ sched)) as [Hin|Hout].
  - destruct (task_failure_found net req sched None i uid e Hin Hi
                (task_outcome_Raise net req i uid e Hfetch)) as [e' ->].
    split; [done|]. intros _. by exists e'.
  - destruct (foldl (task_failure net req) None sched) as [e'|]; [by split|].
    rewrite (not_all_scheduled _ sched i) by (by eapply lookup_lt_Some || done).
    by split.
Qed.

Lemma map_go_terms_fails_with_any_fetch_witness :
  (forall r, map_go_terms failing_net [0; 2]
               (mkRequest "" ["P12345"; "Q9H0H5"; "P04637"] (Some "BP"))
             <> Some (Return r))
  /\ (exists e', map_go_terms failing_net [0; 2; 1]
                   (mkRequest "" ["P12345"; "Q9H0H5"; "P04637"] (Some "BP"))
                 = Some (Raise e')).
Proof.
  split.
  - apply (map_go_terms_fails_with_any_fetch failing_net _ [0; 2] 1 "Q9H0H5"
             (HTTPStatusError 503)).
    + apply NoDup_cons. split; [|apply (NoDup_seq 2 1)].
      intros H%list_elem_of_singleton. discriminate H.
    + reflexivity.
    + reflexivity.
  - apply (map_go_terms_fails_with_any_fetch failing_net _ [0; 2; 1] 1 "Q9H0H5"
             (HTTPStatusError 503)).
    + apply (NoDup_Permutation_proper _ _ (perm_skip 0 (perm_swap 1 2 []))),
        (NoDup_seq 0 3).
    + reflexivity.
    + reflexivity.
    + do 2 apply list_elem_of_further. apply list_elem_of_here.
Defined.






(** ** The graph builder *)

Section loops.
Context {A S : Type} (body : S -> A -> Vis S).

(** A loop that ends kept every invariant its body keeps, and every
    fact [Q x] its body established for an element and that later
    iterations preserve. *)
Lemma for_each_run (I : S -> Prop) (R : S -> S -> Prop) (Q : A -> S -> Prop)
    (l : list A) :
  (forall s, R s s) ->
  (forall s1 s2 s3, R s1 s2 -> R s2 s3 -> R s1 s3) ->
  (forall x s s', R s s' -> Q x s -> Q x s') ->
  (forall s x s', x ∈ l -> I s -> body s x = Built s' -> I s' /\ R s s' /\ Q x s') ->
  forall s s', I s -> for_each body s l = Built s' ->
               I s' /\ R s s' /\ forall x, x ∈ l -> Q x s'.
Proof.
  intros Hrefl Htrans Hmono. induction l as [|x l IH]; intros Hstep s s' Hs Hrun.
  - injection Hrun as <-. split; [done|]. split; [done|].
    by intros x Hx%elem_of_nil.
  - cbn [for_each] in Hrun.
    destruct (body s x) as [s1|e] eqn:Hbody; [|done]. cbn in Hrun.
    destruct (Hstep s x s1 (list_elem_of_here _ _) Hs Hbody) as (Hs1 & HR1 & HQ1).
    destruct (IH (fun s x s' Hx => Hstep s x s' (list_elem_of_further _ _ _ Hx))
                s1 s' Hs1 Hrun) as (Hs' & HR' & HQ').
    split; [done|]. split; [by eapply Htrans|].
    intros y [->|Hy]%elem_of_cons; [by eapply Hmono|by apply HQ'].
Qed.

(** A loop raises [e0] exactly when its body does for some element, if
    the body raises nothing else and independently of the state. *)
Lemma for_each_Failed_iff (e0 : vis_exn) (P : A -> Prop) (l : list A) :
  (forall s x, (body s x = Failed e0 <-> P x)
               /\ (forall e, body s x = Failed e -> e = e0)) ->
  forall s, (for_each body s l = Failed e0 <-> Exists P l)
            /\ (forall e, for_each body s l = Failed e -> e = e0).
Proof.
  intros Hbody. induction l as [|x l IH]; intros s.
  - split; [|done]. split; [done|by intros ?%Exists_nil].
  - cbn [for_each]. destruct (Hbody s x) as [HP Honly].
    destruct (body s x) as [s1|e] eqn:Hx; cbn.
    + destruct (IH s1) as [IH1 IH2]. split; [|done].
      rewrite Exists_cons, IH1. split; [by right|].
      intros [Hp|?]; [|done]. by apply HP in Hp.
    + rewrite (Honly e eq_refl) in *. split; [|by intros ? [= <-]].
      split; [|done]. intros _. apply Exists_cons_hd. by apply HP.
Qed.
End loops.

Lemma update_node_names (n : string) (attr : gmap string (option string))
    (ns : list (string * gmap string (option string))) :
  (update_node n attr ns).*1 = ns.*1.
Proof.
  induction ns as [|[m a] ns IH]; [done|]. cbn [update_node].
  case_decide; [done|]. rewrite !fmap_cons. by rewrite IH.
Qed.

Lemma update_node_elem (n : string) (attr : gmap string (option string))
    (ns : list (string * gmap string (option string)))
    (m : string) (a' : gmap string (option string)) :
  (m, a') ∈ update_node n attr ns ->
  (m, a') ∈ ns \/ (m = n /\ exists a, a' = attr ∪ a).
Proof.
  induction ns as [|[m0 a0] ns IH]; [by intros ?%elem_of_nil|].
  cbn [update_node]. case_decide as Hm0.
  - intros [[= -> ->]|Hin]%elem_of_cons.
    + right. split; [done|]. by exists a0.
    + left. by apply list_elem_of_further.
  - intros [[= -> ->]|Hin]%elem_of_cons.
    + left. apply list_elem_of_here.
    + destruct (IH Hin) as [?|?]; [left; by apply list_elem_of_further|by right].
Qed.

Lemma add_node_names (G G' : DiGraph) (n : string)
    (attr : gmap string (option string)) :
  add_node G (Some n) attr = Built G' ->
  forall m, m ∈ node_names G' <-> m ∈ node_names G \/ m = n.
Proof.
  unfold add_node, node_names. case_bool_decide as Hn; intros [= <-] m; cbn [nodes].
  - rewrite update_node_names. split; [by left|]. by intros [?| ->].
  - rewrite fmap_app, elem_of_app. cbn. by rewrite list_elem_of_singleton.
Qed.

Lemma add_node_NoDup (G G' : DiGraph) (n : string)
    (attr : gmap string (option string)) :
  add_node G (Some n) attr = Built G' ->
  NoDup (node_names G) -> NoDup (node_names G').
Proof.
  unfold add_node, node_names. case_bool_decide as Hn; intros [= <-] Hnd; cbn [nodes].
  - by rewrite update_node_names.
  - rewrite fmap_app. apply NoDup_app. split; [done|]. split.
    + intros m Hm [= ->]%list_elem_of_singleton. done.
    + apply NoDup_singleton.
Qed.

Lemma add_node_edges (G G' : DiGraph) (n : string)
    (attr : gmap string (option string)) :
  add_node G (Some n) attr = Built G' -> edges G' = edges G.
Proof. unfold add_node. by case_bool_decide; intros [= <-]. Qed.

Lemma add_node_attrs (G G' : DiGraph) (n : string)
    (attr : gmap string (option string))
    (m : string) (a' : gmap string (option string)) :
  add_node G (Some n) attr = Built G' ->
  (m, a') ∈ nodes G' ->
  (m, a') ∈ nodes G
  \/ (m = n /\ forall k v, attr !! k = Some v -> a' !! k = Some v).
Proof.
  unfold add_node. case_bool_decide as Hn; intros [= <-]; cbn [nodes].
  - intros [?|[-> [a ->]]]%update_node_elem; [by left|right].
    split; [done|]. intros k v Hk. by apply lookup_union_Some_l.
  - intros [?|[= -> ->]%list_elem_of_singleton]%elem_of_app; [by left|by right].
Qed.

Lemma add_node_total (G : DiGraph) (n : string)
    (attr : gmap string (option string)) :
  exists G', add_node G (Some n) attr = Built G'.
Proof. unfold add_node. case_bool_decide; by eexists. Qed.

Lemma add_edge_present (G : DiGraph) (u v : string) :
  u ∈ node_names G -> v ∈ node_names G ->
  add_edge G (Some u) (Some v) = Built (mkDiGraph (nodes G) ({[ (u, v) ]} ∪ edges G)).
Proof.
  unfold add_edge, ensure_node, node_names. intros Hu Hv.
  rewrite (bool_decide_eq_true_2 _ Hu). by rewrite (bool_decide_eq_true_2 _ Hv).
Qed.

Lemma graph_grows_refl (G : DiGraph) : graph_grows G G.
Proof. by split. Qed.

Lemma graph_grows_trans (G1 G2 G3 : DiGraph) :
  graph_grows G1 G2 -> graph_grows G2 G3 -> graph_grows G1 G3.
Proof. intros [Hn12 He12] [Hn23 He23]. split; auto. Qed.

Lemma term_linked_grows (gene : string) (t : Annotation) (G G' : DiGraph) :
  graph_grows G G' -> term_linked gene t G -> term_linked gene t G'.
Proof.
  intros [Hn He] Hlinked v Hv. destruct (Hlinked v Hv) as [? ?]. auto.
Qed.

Lemma gene_linked_grows (item : string * list Annotation) (G G' : DiGraph) :
  graph_grows G G' -> gene_linked item G -> gene_linked item G'.
Proof.
  intros Hgrows [Hgene Hterms]. split; [by apply Hgrows|].
  intros t Ht. by apply (term_linked_grows _ _ G), Hterms.
Qed.

Section build.
Variable go_data : list (string * list Annotation).

Lemma add_term_step (gene : string) (terms : list Annotation)
    (G G' : DiGraph) (t : Annotation) :
  (gene, terms) ∈ go_data -> t ∈ terms ->
  gene ∈ node_names G /\ graph_sound go_data G ->
  add_term gene G t = Built G' ->
  (gene ∈ node_names G' /\ graph_sound go_data G')
  /\ graph_grows G G' /\ term_linked gene t G'.
Proof.
  intros Hitem Ht [Hgene (Hnodup & Hnodes & Hedges)]. unfold add_term.
  destruct (goId t) as [v|] eqn:Hv; [|done].
  destruct (add_node_total G v {[ "label" := goName t; "type" := Some "go_term" ]})
    as [G1 HG1].
  rewrite HG1. cbn [mbind Vis_bind].
  pose proof (add_node_names _ _ _ _ HG1) as Hnames.
  rewrite add_edge_present by (apply Hnames; auto).
  intros [= <-]. unfold node_names in *. cbn [nodes edges].
  rewrite (add_node_edges _ _ _ _ HG1).
  split; [split; [apply Hnames; by left|]|split].
  - split; [by apply (add_node_NoDup _ _ _ _ HG1)|]. split.
    + intros n a [Hold|[-> Hattr]]%(add_node_attrs _ _ _ _ _ _ HG1); [by apply Hnodes|].
      right. split; [by apply Hattr|]. exists gene, t.
      split; [by exists terms|]. split; [done|by apply Hattr].
    + intros u w [[= -> ->]%elem_of_singleton|Hold]%elem_of_union; [|by apply Hedges].
      exists t. split; [by exists terms|done].
  - split; [intros n Hn; apply Hnames; by left|].
    intros e He. apply elem_of_union. by right.
  - intros w Hw. assert (w = v) as -> by congruence.
    split; [|apply Hnames; by right].
    apply elem_of_union. left. by apply elem_of_singleton.
Qed.

Lemma add_gene_step (G G' : DiGraph) (item : string * list Annotation) :
  item ∈ go_data -> graph_sound go_data G ->
  add_gene G item = Built G' ->
  graph_sound go_data G' /\ graph_grows G G' /\ gene_linked item G'.
Proof.
  destruct item as [gene terms]. intros Hitem (Hnodup & Hnodes & Hedges).
  unfold add_gene. cbn [fst snd].
  destruct (add_node_total G gene {[ "type" := Some "gene" ]}) as [G1 HG1].
  rewrite HG1. cbn [mbind Vis_bind]. intros Hloop.
  pose proof (add_node_names _ _ _ _ HG1) as Hnames.
  assert (gene ∈ node_names G1 /\ graph_sound go_data G1) as HI1.
  { split; [apply Hnames; by right|].
    split; [by apply (add_node_NoDup _ _ _ _ HG1)|]. split.
    - intros n a [Hold|[-> Hattr]]%(add_node_attrs _ _ _ _ _ _ HG1); [by apply Hnodes|].
      left. split; [by apply Hattr|].
      apply list_elem_of_fmap. by exists (gene, terms).
    - rewrite (add_node_edges _ _ _ _ HG1). apply Hedges. }
  destruct (for_each_run (add_term gene)
              (fun G => gene ∈ node_names G /\ graph_sound go_data G)
              graph_grows (term_linked gene) terms
              graph_grows_refl graph_grows_trans (term_linked_grows gene)
              (fun s x s' Hx => add_term_step gene terms s s' x Hitem Hx)
              G1 G' HI1 Hloop) as ([Hgene' Hsound'] & Hgrows' & Hlinked').
  split; [done|]. split; [|by split].
  apply (graph_grows_trans G G1 G'); [|done].
  split; [intros n Hn; apply Hnames; by left|].
  intros e He. by rewrite (add_node_edges _ _ _ _ HG1).
Qed.

(** The graph [build_go_graph] returns holds nothing but what [go_data]
    says, and holds all of it. *)
Lemma build_go_graph_spec (G : DiGraph) :
  build_go_graph go_data = Built G ->
  graph_sound go_data G /\ forall item, item ∈ go_data -> gene_linked item G.
Proof.
  intros Hbuild.
  destruct (for_each_run add_gene (graph_sound go_data) graph_grows gene_linked
              go_data graph_grows_refl graph_grows_trans gene_linked_grows
              (fun s x s' Hx => add_gene_step s s' x Hx)
              (mkDiGraph [] ∅) G) as (Hsound & _ & Hlinked); [|done|done].
  split; [apply NoDup_nil_2|]. split.
  - by intros n a ?%elem_of_nil.
  - by intros u v ?%elem_of_empty.
Qed.
End build.

Lemma add_term_Failed (gene : string) (G : DiGraph) (t : Annotation) :
  (add_term gene G t = Failed ValueError <-> goId t = None)
  /\ (forall e, add_term gene G t = Failed e -> e = ValueError).
Proof.
  unfold add_term. destruct (goId t) as [v|].
  - destruct (add_node_total G v {[ "label" := goName t; "type" := Some "go_term" ]})
      as [G1 ->].
    cbn. split; [split|]; done.
  - cbn. split; [done|]. by intros e [= <-].
Qed.

Lemma add_gene_Failed (G : DiGraph) (item : string * list Annotation) :
  (add_gene G item = Failed ValueError <-> Exists (fun t => goId t = None) item.2)
  /\ (forall e, add_gene G item = Failed e -> e = ValueError).
Proof.
  unfold add_gene.
  destruct (add_node_total G item.1 {[ "type" := Some "gene" ]}) as [G1 ->].
  cbn [mbind Vis_bind].
  apply for_each_Failed_iff. intros s t. apply add_term_Failed.
Qed.

Lemma mapM_Vis_Forall2 {A B} (f : A -> Vis B) (R : A -> B -> Prop) (l : list A) :
  Forall (fun x => exists y, f x = Built y /\ R x y) l ->
  exists ys, mapM f l = Built ys /\ Forall2 R l ys.
Proof.
  induction 1 as [|x l (y & Hy & HR) _ (ys & Hys & HRs)].
  - exists []. by split.
  - exists (y :: ys). split; [|by constructor].
    cbn [mapM]. rewrite Hy. cbn. rewrite Hys. done.
Qed.

(** X16: the edges of the graph [build_go_graph] returns are exactly the
    pairs of a key of [go_data] and the [goId] of one of the records
    listed under that key. *)
Theorem build_go_graph_edges (go_data : list (string * list Annotation))
    (G : DiGraph) (u v : string) :
  build_go_graph go_data = Built G ->
  (u, v) ∈ edges G <-> exists t, term_of go_data u t /\ goId t = Some v.
Proof.
  intros [(_ & _ & Hedges) Hlinked]%build_go_graph_spec. split; [apply Hedges|].
  intros (t & (terms & Hitem & Ht) & Hv).
  destruct (Hlinked (u, terms) Hitem) as [_ Hterms].
  by apply (Hterms t Ht v Hv).
Qed.

Lemma build_go_graph_edges_witness :
  exists G, build_go_graph sample_go_data = Built G
    /\ (("Q9H0H5", "GO:0006103") ∈ edges G
        <-> exists t, term_of sample_go_data "Q9H0H5" t
                      /\ goId t = Some "GO:0006103").
Proof.
  eexists. split; [reflexivity|].
  apply (build_go_graph_edges sample_go_data). reflexivity.
Defined.

(** X17: the graph returned has no node twice, and its nodes are exactly
    the keys of [go_data] and the [goId]s of the records listed in it. *)
Theorem build_go_graph_nodes (go_data : list (string * list Annotation))
    (G : DiGraph) :
  build_go_graph go_data = Built G ->
  NoDup (node_names G)
  /\ forall n, n ∈ node_names G
               <-> n ∈ go_data.*1
                   \/ exists gene t, term_of go_data gene t /\ goId t = Some n.
Proof.
  intros [(Hnodup & Hnodes & _) Hlinked]%build_go_graph_spec.
  split; [done|]. intros n. split.
  - intros ([n' a] & -> & Hin)%list_elem_of_fmap. cbn.
    destruct (Hnodes n' a Hin) as [[_ ?]|[_ (gene & t & ? & ? & _)]];
      [by left|right; by exists gene, t].
  - intros [([gene terms] & -> & Hitem)%list_elem_of_fmap
           |(gene & t & (terms & Hitem & Ht) & Hn)].
    + by destruct (Hlinked _ Hitem) as [? _].
    + destruct (Hlinked _ Hitem) as [_ Hterms]. by apply (Hterms t Ht n Hn).
Qed.

Lemma build_go_graph_nodes_witness :
  exists G, build_go_graph sample_go_data = Built G
    /\ NoDup (node_names G)
    /\ forall n, n ∈ node_names G
                 <-> n ∈ sample_go_data.*1
                     \/ exists gene t, term_of sample_go_data gene t
                                       /\ goId t = Some n.
Proof.
  eexists. split; [reflexivity|].
  apply (build_go_graph_nodes sample_go_data). reflexivity.
Defined.

(** X18: every node of the graph returned carries a [type]: either
    "gene", and then the node is a key of [go_data], or "go_term", and
    then the node is the [goId] of a record of [go_data] whose [goName]
    is the node's [label]. *)
Theorem build_go_graph_attributes (go_data : list (string * list Annotation))
    (G : DiGraph) (n : string) (a : gmap string (option string)) :
  build_go_graph go_data = Built G ->
  (n, a) ∈ nodes G ->
  node_described go_data n a.
Proof.
  intros [(_ & Hnodes & _) _]%build_go_graph_spec. apply Hnodes.
Qed.

Lemma build_go_graph_attributes_witness :
  node_described sample_go_data "GO:0004069"
    {[ "label" := None; "type" := Some "go_term" ]}.
Proof.
  eapply (build_go_graph_attributes sample_go_data); [reflexivity|].
  cbn. do 2 apply list_elem_of_further. apply list_elem_of_here.
Defined.

(** X19: on a graph [build_go_graph] returned, computing the colour list
    of [draw_graph] and [export_graph_image] raises no [KeyError]; it
    gives one colour per node, "skyblue" only for keys of [go_data] and
    "lightgreen" only for [goId]s of its records. *)
Theorem build_go_graph_colors (go_data : list (string * list Annotation))
    (G : DiGraph) :
  build_go_graph go_data = Built G ->
  exists colors,
    node_colors G = Built colors
    /\ Forall2 (fun node c =>
                  (c = "skyblue" /\ node.1 ∈ go_data.*1)
                  \/ (c = "lightgreen"
                      /\ exists gene t, term_of go_data gene t
                                        /\ goId t = Some node.1))
               (nodes G) colors.
Proof.
  intros [(_ & Hnodes & _) _]%build_go_graph_spec.
  apply mapM_Vis_Forall2, Forall_forall. intros [n a] Hin.
  unfold node_color. cbn [fst snd].
  destruct (Hnodes n a Hin) as [[-> ?]|[-> (gene & t & ? & ? & _)]].
  - eexists. split; [done|]. by left.
  - eexists. split; [done|]. right. split; [done|]. by exists gene, t.
Qed.

Lemma build_go_graph_colors_witness :
  exists G colors,
    build_go_graph sample_go_data = Built G
    /\ node_colors G = Built colors
    /\ Forall2 (fun node c =>
                  (c = "skyblue" /\ node.1 ∈ sample_go_data.*1)
                  \/ (c = "lightgreen"
                      /\ exists gene t, term_of sample_go_data gene t
                                        /\ goId t = Some node.1))
               (nodes G) colors.
Proof.
  eexists.
  destruct (build_go_graph_colors sample_go_data _ eq_refl) as (colors & H).
  by exists colors.
Defined.

(** X20: [build_go_graph] raises exactly when some record of [go_data]
    has no [goId]; the exception is then the [ValueError] of adding
    [None] as a node, and no graph is returned. *)
Theorem build_go_graph_raises_iff (go_data : list (string * list Annotation)) :
  (build_go_graph go_data = Failed ValueError
   <-> exists gene t, term_of go_data gene t /\ goId t = None)
  /\ (forall e, build_go_graph go_data = Failed e -> e = ValueError).
Proof.
  unfold build_go_graph.
  destruct (for_each_Failed_iff add_gene ValueError
              (fun item => Exists (fun t => goId t = None) item.2) go_data
              (fun s x => add_gene_Failed s x) (mkDiGraph [] ∅)) as [Hiff Honly].
  split; [|done]. rewrite Hiff, Exists_exists. split.
  - intros ([gene terms] & Hitem & (t & Ht & Hnone)%Exists_exists).
    exists gene, t. split; [by exists terms|done].
  - intros (gene & t & (terms & Hitem & Ht) & Hnone).
    exists (gene, terms). split; [done|]. apply Exists_exists. by exists t.
Qed.

(** ** The scripts *)

Lemma str_field_opt_json (kw : gmap string json) (key : string) (v : option string) :
  kw !! key = Some (opt_json v) -> str_field kw key = Return v.
Proof. intros H. unfold str_field. rewrite H. by destruct v. Qed.

Lemma Annotation_init_encoded (term : Annotation) :
  Annotation_init (jsonable_encoder term) = Return term.
Proof.
  destruct term. unfold jsonable_encoder, Annotation_init. cbn [id geneProductId
    qualifier goId goAspect goEvidence goName assignedBy symbol synonyms name
    reference].
  repeat (erewrite str_field_opt_json by reflexivity; cbn [mbind Exc_bind]).
  reflexivity.
Qed.

Lemma mapM_Annotation_init_encoded (terms : list Annotation) :
  mapM Annotation_init (jsonable_encoder <$> terms) = Return terms.
Proof.
  induction terms as [|t terms IH]; [done|].
  rewrite fmap_cons. cbn [mapM]. rewrite Annotation_init_encoded, IH. done.
Qed.

Lemma resolve_bind {A B} (env : HttpRequest -> HttpOutcome)
    (m : Coro A) (f : A -> Coro B) :
  resolve env (m ≫= f)
  = match resolve env m with
    | Return a => resolve env (f a)
    | Raise e => Raise e
    end.
Proof.
  induction m as [[a|e]|q k IH|key v k IH]; cbn; [done|done|apply IH|apply IH].
Qed.

Lemma awaited_bind {A B} (env : HttpRequest -> HttpOutcome)
    (m : Coro A) (f : A -> Coro B) :
  awaited env (m ≫= f)
  = (awaited env m ++ match resolve env m with
                      | Return a => awaited env (f a)
                      | Raise _ => []
                      end)%list.
Proof.
  induction m as [[a|e]|q k IH|key v k IH]; cbn; [done|done| |apply IH].
  f_equal. apply IH.
Qed.

(** X21: decoding what [jsonable_encoder] produced for a record gives the
    record back: no field is lost or altered by the round trip. *)
Theorem Annotation_init_jsonable_encoder (term : Annotation) :
  Annotation_init (jsonable_encoder term) = Return term.
Proof. apply Annotation_init_encoded. Qed.

(** X22: when its fetch returns, the script of go_term_fetcher.py has
    sent one request and hands to the printer an array of
    [min 3 (number of terms)] objects that decode back to the first
    three terms fetched, in order. *)
Theorem fetcher_main_output (env : HttpRequest -> HttpOutcome)
    (terms : list Annotation) :
  resolve env (fetch_go_terms "P12345") = Return terms ->
  exists items,
    resolve env fetcher_main = Return (JArr items)
    /\ length items = min 3 (length terms)
    /\ mapM Annotation_init items = Return (take 3 terms)
    /\ awaited env fetcher_main = [quickgo_request "P12345"].
Proof.
  intros Hfetch. exists (jsonable_encoder <$> take 3 terms).
  unfold fetcher_main. rewrite resolve_bind, awaited_bind, Hfetch.
  rewrite fetch_go_terms_awaited. cbn [resolve awaited].
  split; [done|]. split; [by rewrite length_fmap, length_take|].
  split; [apply mapM_Annotation_init_encoded|done].
Qed.

Lemma fetcher_main_output_witness :
  exists items,
    resolve (sample_net 1) fetcher_main = Return (JArr items)
    /\ length items = min 3 (length (record_of <$> five_records))
    /\ mapM Annotation_init items = Return (take 3 (record_of <$> five_records))
    /\ awaited (sample_net 1) fetcher_main = [quickgo_request "P12345"].
Proof.
  apply (fetcher_main_output (sample_net 1)). reflexivity.
Defined.

(** X23: the script of visualiser.py fetches one identifier after the
    other: the request for "Q9H0H5" is sent only once the fetch for
    "P12345" has returned, and never if that fetch raised. *)
Theorem visualiser_main_requests (env : HttpRequest -> HttpOutcome) :
  awaited env visualiser_main
  = match resolve env (fetch_go_terms "P12345") with
    | Return _ => [quickgo_request "P12345"; quickgo_request "Q9H0H5"]
    | Raise _ => [quickgo_request "P12345"]
    end.
Proof.
  unfold visualiser_main. rewrite awaited_bind, fetch_go_terms_awaited.
  destruct (resolve env (fetch_go_terms "P12345")) as [terms1|e]; [|done].
  rewrite awaited_bind, fetch_go_terms_awaited.
  by destruct (resolve env (fetch_go_terms "Q9H0H5")).
Qed.

(** X24: when both fetches of the script of visualiser.py return, the
    graph it draws has an edge from each of the two identifiers to the
    [goId] of each record fetched for it, and no other edge. *)
Theorem visualiser_main_graph (env : HttpRequest -> HttpOutcome)
    (terms1 terms2 : list Annotation) (G : DiGraph) (u v : string) :
  resolve env (fetch_go_terms "P12345") = Return terms1 ->
  resolve env (fetch_go_terms "Q9H0H5") = Return terms2 ->
  resolve env visualiser_main = Return (Built G) ->
  (u, v) ∈ edges G
  <-> (u = "P12345" /\ exists t, t ∈ terms1 /\ goId t = Some v)
      \/ (u = "Q9H0H5" /\ exists t, t ∈ terms2 /\ goId t = Some v).
Proof.
  intros H1 H2. unfold visualiser_main.
  rewrite resolve_bind, H1, resolve_bind, H2. cbn [resolve].
  intros [= Hbuild].
  destruct (build_go_graph_spec _ _ Hbuild) as [(_ & _ & Hedges) Hlinked].
  split.
  - intros (t & (terms & Hitem & Ht) & Hv)%Hedges.
    apply elem_of_cons in Hitem as [[= -> ->]|Hitem]; [left; eauto|].
    apply list_elem_of_singleton in Hitem as [= -> ->]. right; eauto.
  - intros [[-> (t & Ht & Hv)]|[-> (t & Ht & Hv)]].
    + destruct (Hlinked ("P12345", terms1)) as [_ Hterms]; [apply list_elem_of_here|].
      by apply (Hterms t Ht v Hv).
    + destruct (Hlinked ("Q9H0H5", terms2)) as [_ Hterms];
        [apply list_elem_of_further, list_elem_of_here|].
      by apply (Hterms t Ht v Hv).
Qed.

Lemma visualiser_main_graph_witness :
  exists G,
    resolve (sample_net 1) visualiser_main = Return (Built G)
    /\ (("Q9H0H5", "GO:0005515") ∈ edges G
        <-> ("Q9H0H5" = "P12345"
             /\ exists t, t ∈ (record_of <$> five_records)
                           /\ goId t = Some "GO:0005515")
            \/ ("Q9H0H5" = "Q9H0H5"
                /\ exists t, t ∈ (record_of <$> five_records)
                              /\ goId t = Some "GO:0005515")).
Proof.
  eexists. split; [vm_compute; reflexivity|].
  apply (visualiser_main_graph (sample_net 1)
           (record_of <$> five_records) (record_of <$> five_records));
    vm_compute; reflexivity.
Defined.
